(** * EdTech news scraper: the content-extraction pipeline

    A shallow embedding of the two copies of the scraper that the
    repository carries,

    - the ES-module copy   (src/src/messenger.js, second document: [Esm]),
    - the CommonJS copy    (src/unnamed/part_000:                  [Cjs]),

    and the properties of URL classification, text normalisation,
    extraction, navigation retry, session release and batch coordination. *)

From Stdlib Require Import List NArith Bool Lia String Ascii.
Import ListNotations.
Local Open Scope N_scope.
Local Open Scope list_scope.

Set Implicit Arguments.

(* ================================================================== *)
(** * JavaScript strings *)
(* ================================================================== *)

(** A JavaScript string is a sequence of UTF-16 code units; [.length] is
    the number of code units. *)
Definition jschar := N.
Definition jsstring := list jschar.

(** String literals of the source are ASCII; [js "..."] is their code
    unit sequence. *)
Definition js (s : string) : jsstring :=
  map N_of_ascii (list_ascii_of_string s).

Definition TAB : jschar := 9.
Definition LF : jschar := 10.
Definition CR : jschar := 13.
Definition SP : jschar := 32.
Definition NBSP : jschar := 160.

(** The character class [\s] of a regular expression, which is also the
    set removed by [String.prototype.trim]: WhiteSpace and LineTerminator
    of ECMA-262. *)
Definition is_ws (c : jschar) : bool :=
  ((9 <=? c) && (c <=? 13))            (* \t \n \v \f \r *)
  || (c =? 32)                         (* space *)
  || (c =? 160)                        (* u00A0 no-break space *)
  || (c =? 5760)                       (* u1680 *)
  || ((8192 <=? c) && (c <=? 8202))    (* u2000 .. u200A *)
  || (c =? 8232) || (c =? 8233)        (* u2028 u2029 *)
  || (c =? 8239) || (c =? 8287)        (* u202F u205F *)
  || (c =? 12288)                      (* u3000 *)
  || (c =? 65279).                     (* uFEFF *)

Definition is_lf (c : jschar) : bool := c =? LF.
Definition is_tab (c : jschar) : bool := c =? TAB.
Definition is_nbsp (c : jschar) : bool := c =? NBSP.

Fixpoint str_eqb (a b : jsstring) : bool :=
  match a, b with
  | [], [] => true
  | x :: a', y :: b' => (x =? y) && str_eqb a' b'
  | _, _ => false
  end.

(** [s.replace(/C+/g, " ")] for a character class [C]: every maximal run
    of characters of the class becomes one space.  [inrun] tells that the
    previous character belonged to the run being replaced. *)
Fixpoint replace_runs_from (p : jschar -> bool) (inrun : bool) (s : jsstring)
  : jsstring :=
  match s with
  | [] => []
  | c :: t =>
      if p c then
        if inrun then replace_runs_from p true t
        else SP :: replace_runs_from p true t
      else c :: replace_runs_from p false t
  end.

Definition replace_runs (p : jschar -> bool) (s : jsstring) : jsstring :=
  replace_runs_from p false s.

(** [s.replace(/C/g, " ")]: each single character of the class becomes a
    space. *)
Definition replace_each (p : jschar -> bool) (s : jsstring) : jsstring :=
  map (fun c => if p c then SP else c) s.

(** [s.replace(/(\r\n|\n|\r)/gm, " ")]: the alternatives are tried in
    order at each position, so CR LF is replaced as a pair. *)
Fixpoint replace_linebreaks (s : jsstring) : jsstring :=
  match s with
  | [] => []
  | c :: t =>
      if c =? CR then
        match t with
        | d :: t' =>
            if d =? LF then SP :: replace_linebreaks t'
            else SP :: replace_linebreaks t
        | [] => [SP]
        end
      else if c =? LF then SP :: replace_linebreaks t
      else c :: replace_linebreaks t
  end.

Fixpoint dropWhile (p : jschar -> bool) (s : jsstring) : jsstring :=
  match s with
  | [] => []
  | c :: t => if p c then dropWhile p t else s
  end.

(** [String.prototype.trim]. *)
Definition trimStart (s : jsstring) : jsstring := dropWhile is_ws s.
Definition trimEnd (s : jsstring) : jsstring := rev (dropWhile is_ws (rev s)).
Definition trim (s : jsstring) : jsstring := trimEnd (trimStart s).

(** [Array.prototype.join]. *)
Fixpoint join (sep : jsstring) (l : list jsstring) : jsstring :=
  match l with
  | [] => []
  | [x] => x
  | x :: rest => x ++ sep ++ join sep rest
  end.

(** Truthiness of a string: the empty string is the only falsy one. *)
Definition truthy (s : jsstring) : bool :=
  match s with [] => false | _ => true end.

Definition len (s : jsstring) : N := N.of_nat (List.length s).

(* ================================================================== *)
(** * Text normaliser: [cleanContent] *)
(* ================================================================== *)

(** What the specification asks of the normaliser, in its own words:
    runs of whitespace become single ASCII spaces and the ends are
    trimmed.  That is: the maximal whitespace-free pieces of the text,
    joined by one space. *)
Fixpoint words (s : jsstring) : list jsstring :=
  match s with
  | [] => []
  | c :: t =>
      if is_ws c then words t
      else
        match t with
        | [] => [[c]]
        | d :: _ =>
            if is_ws d then [c] :: words t
            else
              match words t with
              | w :: ws => (c :: w) :: ws
              | [] => [[c]]
              end
        end
  end.

Definition normalize_spec (s : jsstring) : jsstring := join [SP] (words s).

(** A text is _collapsed_ when its only whitespace is the ASCII space. *)
Definition collapsed (s : jsstring) : Prop :=
  forall c, In c s -> is_ws c = true -> c = SP.

(** Words are never empty and hold no whitespace. *)
Definition word (w : jsstring) : Prop :=
  w <> [] /\ forall c, In c w -> is_ws c = false.

(* ================================================================== *)
(** * Completions and the effect monad *)
(* ================================================================== *)

(** What a JavaScript exception of the pipeline can be. *)
Inductive Err : Type :=
| TypeError            (* [new URL] on a string that does not parse *)
| RangeError           (* [toISOString] on an invalid date *)
| LaunchError          (* [puppeteer.launch] rejects *)
| PageError            (* a page set-up call rejects *)
| NavigationError      (* [page.goto] rejects *)
| NavigationTimeout (ms : N)  (* the timer of the race rejects first *)
| ContentError         (* [page.content] rejects *)
| CloseError           (* [browser.close] rejects *)
| OutOfFuel.           (* the model's loop bound was reached: never happens *)

(** A call either completes normally or throws. *)
Inductive completion (A : Type) : Type :=
| Normal (a : A)
| Throw (e : Err).
Arguments Throw {A} e.

(** The calls on the rendering capability that the pipeline makes, with
    the constants it passes. *)
Inductive Event : Type :=
| Launch (timeout : N)
| NewPage
| SetDefaultNavigationTimeout (ms : N)
| SetRequestInterception
| SetUserAgent
| Goto (url : jsstring) (timer : N)  (* [page.goto] raced against a timer *)
| Sleep (ms : N)                     (* [await new Promise(r => setTimeout(r, ms))] *)
| WaitForSelector (timeout : N)
| Content
| Close.

(** State threaded through an invocation: the calls made so far, oldest
    first, and the local variable [browser] of [scrapeContent]
    ([false] is [null]). *)
Record St : Type := { trace : list Event; browser : bool }.

Definition M (A : Type) : Type := St -> completion A * St.

Definition ret {A} (a : A) : M A := fun s => (Normal a, s).

Definition bind {A B} (m : M A) (k : A -> M B) : M B :=
  fun s =>
    match m s with
    | (Normal a, s') => k a s'
    | (Throw e, s') => (Throw e, s')
    end.

Definition throw {A} (e : Err) : M A := fun s => (Throw e, s).

(** [try { m } catch (e) { h e }] *)
Definition try_catch {A} (m : M A) (h : Err -> M A) : M A :=
  fun s =>
    match m s with
    | (Normal a, s') => (Normal a, s')
    | (Throw e, s') => h e s'
    end.

(** [try { m } finally { f }]: [f] runs on every exit of [m]; when [f]
    throws, its exception replaces the completion of [m]. *)
Definition try_finally {A} (m : M A) (f : M unit) : M A :=
  fun s =>
    match m s with
    | (r, s') =>
        match f s' with
        | (Normal _, s'') => (r, s'')
        | (Throw e, s'') => (Throw e, s'')
        end
    end.

Definition emit (e : Event) : M unit :=
  fun s => (Normal tt, {| trace := trace s ++ [e]; browser := browser s |}).

Definition set_browser (b : bool) : M unit :=
  fun s => (Normal tt, {| trace := trace s; browser := b |}).

Definition get_browser : M bool := fun s => (Normal (browser s), s).

(** A pure computation that may throw, run inside [M]. *)
Definition lift {A} (c : completion A) : M A := fun s => (c, s).

Declare Scope js_scope.
Delimit Scope js_scope with js.
Notation "x <- m ;; k" := (bind m (fun x => k))
  (at level 61, m at next level, right associativity) : js_scope.
Notation "m ;; k" := (bind m (fun _ => k))
  (at level 61, right associativity) : js_scope.

(** An awaited call on the rendering capability: it is recorded, and it
    resolves or rejects as the capability decides. *)
Definition call (e : Event) (ok : bool) (err : Err) : M unit :=
  (emit e ;; if ok then ret tt else throw err)%js.

Definition init : St := {| trace := []; browser := false |}.

(* ================================================================== *)
(** * Platform: [URL] and [Date] *)
(* ================================================================== *)

(** The two built-ins of the runtime that the pipeline relies on.

    - [URL_pathname u] is [new URL(u).pathname]; [None] when the
      constructor throws [TypeError].
    - [Date_toISOString d] is [new Date(d).toISOString()]; [None] when the
      date is invalid and [toISOString] throws [RangeError]. *)
Record Platform : Type := {
  URL_pathname : jsstring -> option jsstring;
  Date_toISOString : jsstring -> option jsstring
}.

(* ================================================================== *)
(** * Regular expressions of the classifier *)
(* ================================================================== *)

Inductive regex : Type :=
| Void                          (* matches nothing *)
| Eps                           (* matches the empty string *)
| Chr (c : jschar)
| Seq (a b : regex)
| Alt (a b : regex)
| Opt (a : regex).              (* [a?] *)

(** [Canonicalize] of ECMA-262 (non-Unicode [i] flag), as far as the
    comparison with an ASCII pattern character goes: ASCII letters are
    compared by their upper case; a character outside ASCII never
    canonicalizes to an ASCII one and so stays as it is. *)
Definition canon (ignoreCase : bool) (c : jschar) : jschar :=
  if ignoreCase && (97 <=? c) && (c <=? 122) then c - 32 else c.

Fixpoint nullable (r : regex) : bool :=
  match r with
  | Void => false
  | Eps => true
  | Chr _ => false
  | Seq a b => nullable a && nullable b
  | Alt a b => nullable a || nullable b
  | Opt _ => true
  end.

(** Brzozowski derivative. *)
Fixpoint deriv (i : bool) (c : jschar) (r : regex) : regex :=
  match r with
  | Void => Void
  | Eps => Void
  | Chr d => if canon i c =? canon i d then Eps else Void
  | Seq a b =>
      if nullable a then Alt (Seq (deriv i c a) b) (deriv i c b)
      else Seq (deriv i c a) b
  | Alt a b => Alt (deriv i c a) (deriv i c b)
  | Opt a => deriv i c a
  end.

(** A literal [/^...$/] or [/^...$/i]: both anchors are present in every
    pattern of the source and the [m] flag in none, so [test] succeeds
    exactly when the whole string matches. *)
Record RegExp : Type := { body : regex; ignoreCase : bool }.

Definition test (p : RegExp) (s : jsstring) : bool :=
  nullable (fold_left (fun r c => deriv (ignoreCase p) c r) s (body p)).

Definition lit (s : string) : regex :=
  fold_right (fun c r => Seq (Chr c) r) Eps (js s).

Definition alts (l : list string) : regex :=
  fold_right (fun s r => Alt (lit s) r) Void l.

(** [/^\/NAME\.(html|php|asp|jsp)$/i] *)
Definition index_like (name : string) : RegExp :=
  {| body := Seq (lit "/") (Seq (lit name) (Seq (lit ".")
               (alts ["html"; "php"; "asp"; "jsp"])));
     ignoreCase := true |}%string.

(** [/^\/NAME\/?$/i] *)
Definition slash_opt (name : string) : RegExp :=
  {| body := Seq (lit "/") (Seq (lit name) (Opt (lit "/")));
     ignoreCase := true |}%string.

(* ================================================================== *)
(** * URL classifier: [isHomepage] *)
(* ================================================================== *)

(** Both copies carry the same function (src/unnamed/part_000, lines
    9-64; src/src/messenger.js, lines 172-227). *)

Definition homepagePatterns : list RegExp :=
  [ {| body := lit "/"; ignoreCase := false |};   (* /^\/$/ *)
    index_like "index";
    index_like "home";
    index_like "default";
    index_like "welcome";
    slash_opt "home";
    slash_opt "main" ]%string.

Definition nonArticlePatterns : list RegExp :=
  map slash_opt
    [ "about"; "contact"; "faq"; "help"; "support"; "terms"; "privacy";
      "login"; "signup"; "register"; "account" ]%string.

Definition new_URL_pathname (P : Platform) (url : jsstring) : completion jsstring :=
  match URL_pathname P url with
  | Some path => Normal path
  | None => Throw TypeError
  end.

Definition isHomepage (P : Platform) (url : jsstring) : completion bool :=
  match new_URL_pathname P url with
  | Normal path =>
      (* Check if the path matches homepage patterns *)
      if existsb (fun pattern => test pattern path) homepagePatterns then
        Normal true
      (* Check if URL is just the domain *)
      else if str_eqb path [] || str_eqb path (js "/") then Normal true
      (* Check for non-article pages *)
      else if existsb (fun pattern => test pattern path) nonArticlePatterns then
        Normal true
      else Normal false
  | Throw _ => Normal false   (* catch: if we can't determine, don't skip *)
  end.

(* ================================================================== *)
(** * Markup parser: the cheerio interface *)
(* ================================================================== *)

(** The selectors the source writes, as data. *)
Inductive simple_selector : Type :=
| Tag (name : string)                    (* [article] *)
| Class (name : string)                  (* [.article] *)
| Id (name : string)                     (* [#content] *)
| HasAttr (tag attr : string)            (* [time[datetime]] *)
| AttrEq (tag attr value : string)       (* [meta[name=date]] *)
| AttrIs (attr value : string).          (* [[role=main]] *)

Inductive selector : Type :=
| Sel (s : simple_selector)
| Group (l : list simple_selector).      (* [a, b, c] *)

Coercion Sel : simple_selector >-> selector.

(** An element as the pipeline observes it. *)
Record Element : Type := {
  el_text : jsstring;                    (* [$(el).text()] *)
  el_attrs : list (string * jsstring);   (* attributes, by name *)
  el_text_less_p_div : jsstring          (* [$(el).clone().find("p, div").remove().end().text()] *)
}.

(** A matched set, in document order. *)
Definition Selection := list Element.

(** [$]: a selector is answered with its matched set. *)
Definition Cheerio := selector -> Selection.

(** Rendered markup: [after_removing m sel] is the [$] obtained by
    [load(content)] followed by [$(sel).remove()]. *)
Record Markup : Type := { after_removing : selector -> Cheerio }.

(** [.text()] of a set: the texts of its elements, concatenated. *)
Definition text (s : Selection) : jsstring := List.concat (map el_text s).

Definition el_attr (name : string) (e : Element) : option jsstring :=
  match find (fun kv => String.eqb (fst kv) name) (el_attrs e) with
  | Some kv => Some (snd kv)
  | None => None
  end.

(** [.attr(name)] of a set: the attribute of its first element;
    [None] is [undefined]. *)
Definition attr (name : string) (s : Selection) : option jsstring :=
  match s with
  | [] => None
  | e :: _ => el_attr name e
  end.

(** [.first()] *)
Definition first (s : Selection) : Selection := firstn 1 s.

(** [a || b] on values that are a string, [null] or [undefined]. *)
Definition or_else (a b : option jsstring) : option jsstring :=
  match a with
  | Some (_ :: _) => a
  | _ => b
  end.

(** [a || b] on strings. *)
Definition or_str (a b : jsstring) : jsstring :=
  if truthy a then a else b.

(** Truthiness of a string, [null] or [undefined]. *)
Definition truthy_opt (a : option jsstring) : bool :=
  match a with
  | Some s => truthy s
  | None => false
  end.

(** The elements removed before extraction (both copies). *)
Definition removedSelector : selector :=
  Group [ Tag "script"; Tag "style"; Tag "nav"; Tag "footer"; Tag "header";
          Tag "aside"; Class "sidebar"; Class "footer"; Class "header";
          Class "nav"; Class "menu"; Class "ad"; Class "ads";
          Class "advertisement"; Class "cookie"; Class "popup" ]%string.

(* ================================================================== *)
(** * Rendering capability *)
(* ================================================================== *)

(** A response descriptor; [status] is [None] when the object carries no
    [status] method. *)
Record Response : Type := { status : option N }.

(** How [page.goto] behaves in one attempt. *)
Inductive GotoOutcome : Type :=
| Resolves (r : option Response)   (* resolves in time; [None] is [null] *)
| Rejects                          (* rejects in time *)
| Pending.                         (* has not settled when the timer fires *)

(** What the capability does for one URL. *)
Record Site : Type := {
  launch_ok : bool;
  newPage_ok : bool;
  setDefaultNavigationTimeout_ok : bool;
  setRequestInterception_ok : bool;
  setUserAgent_ok : bool;
  goto : N -> GotoOutcome;          (* by attempt number, from 1 *)
  page_content : option Markup;     (* [None]: [page.content()] rejects *)
  close_ok : bool
}.

Definition World := jsstring -> Site.

(** [{ content, publishedDate, title }]; [r_title] is [None] where the
    returned object has no [title] property. *)
Record ScrapeResult : Type := {
  r_content : jsstring;
  r_publishedDate : option jsstring;
  r_title : option jsstring
}.

(** The empty-content result: [content] is the empty string and
    [publishedDate] is [null]. *)
Definition empty_result : ScrapeResult :=
  {| r_content := []; r_publishedDate := None; r_title := None |}.

(** [{ url, title, date }] *)
Record CandidateUrl : Type := {
  c_url : jsstring;
  c_title : jsstring;
  c_date : option jsstring
}.

(* ================================================================== *)
(** * Fetch orchestrator: what the two copies share *)
(* ================================================================== *)

(** [Promise.race([page.goto(url, ...), timer])]: whichever settles
    first. *)
Definition race (o : GotoOutcome) (navigationTimeout : N)
  : completion (option Response) :=
  match o with
  | Resolves r => Normal r
  | Rejects => Throw NavigationError
  | Pending => Throw (NavigationTimeout navigationTimeout)
  end.

(** How the retry loop is left. *)
Inductive NavResult : Type :=
| Left (response : option Response)  (* [break], or the loop test failed *)
| Returned (r : ScrapeResult).       (* [return] inside the loop *)

Definition maxAttempts : N := 3.
Definition navigationTimeout : N := 30000.

Section Orchestrator.

Variable P : Platform.
Variable W : World.

(** The [while] loop of both copies (part_000 lines 118-155,
    messenger.js lines 296-333). *)
Fixpoint navigate (fuel : nat) (url : jsstring)
         (response : option Response) (attempts : N) : M NavResult :=
  match fuel with
  | O => throw OutOfFuel
  | S fuel' =>
      match response with
      | Some _ => ret (Left response)
      | None =>
          if attempts <? maxAttempts then
            let attempts := attempts + 1 in
            try_catch
              (emit (Goto url navigationTimeout) ;;
               response <- lift (race (goto (W url) attempts) navigationTimeout) ;;
               (* If we get here, navigation succeeded *)
               ret (Left response))%js
              (fun navigationError =>
                 if maxAttempts <=? attempts then ret (Returned empty_result)
                 else
                   (* Wait before retrying *)
                   (emit (Sleep 2000) ;;
                    navigate fuel' url response attempts)%js)
          else ret (Left response)
      end
  end.

(** [!response || (response.status && response.status() !== 200)] *)
Definition failed_to_load (response : option Response) : bool :=
  match response with
  | None => true
  | Some r =>
      match status r with
      | Some code => negb (code =? 200)
      | None => false
      end
  end.

(** The body of the [try] block, given the extraction that follows
    [cheerio.load]. *)
Definition scrape_try (extract : Cheerio -> ScrapeResult) (url : jsstring)
  : M ScrapeResult :=
  (emit (Launch 60000) ;;
   (if launch_ok (W url) then set_browser true else throw LaunchError) ;;
   call NewPage (newPage_ok (W url)) PageError ;;
   call (SetDefaultNavigationTimeout 60000)
        (setDefaultNavigationTimeout_ok (W url)) PageError ;;
   call SetRequestInterception (setRequestInterception_ok (W url)) PageError ;;
   call SetUserAgent (setUserAgent_ok (W url)) PageError ;;
   nav <- navigate (S (N.to_nat maxAttempts)) url None 0 ;;
   match nav with
   | Returned r => ret r
   | Left response =>
       if failed_to_load response then ret empty_result
       else
         (* the outcome of the wait is ignored *)
         emit (WaitForSelector 5000) ;;
         emit Content ;;
         match page_content (W url) with
         | None => throw ContentError
         | Some content =>
             ret (extract (after_removing content removedSelector))
         end
   end)%js.

(** [scrapeContent] of both copies, up to the extraction. *)
Definition scrapeContentWith (extract : Cheerio -> ScrapeResult)
           (url : jsstring) : M ScrapeResult :=
  (skip <- lift (isHomepage P url) ;;
   if skip then ret empty_result
   else
     set_browser false ;;
     try_finally
       (try_catch (scrape_try extract url) (fun error => ret empty_result))
       (b <- get_browser ;;
        if b then call Close (close_ok (W url)) CloseError else ret tt))%js.

End Orchestrator.

(** What one invocation of [scrapeContent] yields, and the calls it makes,
    when started on its own. *)
Definition outcome (P : Platform) (W : World) (extract : Cheerio -> ScrapeResult)
           (url : jsstring) : completion ScrapeResult :=
  fst (scrapeContentWith P W extract url init).

Definition events (P : Platform) (W : World) (extract : Cheerio -> ScrapeResult)
           (url : jsstring) : list Event :=
  trace (snd (scrapeContentWith P W extract url init)).

Definition sel_length (s : Selection) : N := N.of_nat (List.length s).

(** [$(sel).map(function () { return f(this) }).get()] for an [f] that
    always returns a string. *)
Definition map_get (f : Element -> jsstring) (s : Selection) : list jsstring :=
  map f s.

(** [$("title").text() || $("h1").first().text() || EMPTY], with EMPTY the
    empty string (both copies). *)
Definition page_title (doc : Cheerio) : jsstring :=
  or_str (or_str (text (doc (Tag "title"))) (text (first (doc (Tag "h1"))))) [].

(* ================================================================== *)
(** * The ES-module copy (src/src/messenger.js, second document) *)
(* ================================================================== *)

Module Esm.

(** [cleanContent] (lines 489-497). *)
Definition cleanContent (text : jsstring) : jsstring :=
  if negb (truthy text) then []
  else
    trim
      (replace_runs is_tab
         (replace_runs is_lf
            (replace_runs is_ws text))).

(** [extractPublicationDate] (lines 455-482). *)
Definition dateSelectors : list selector :=
  [ Sel (AttrEq "meta" "property" "article:published_time");
    Sel (AttrEq "meta" "name" "publish_date");
    Sel (AttrEq "meta" "name" "date");
    Sel (AttrEq "meta" "name" "pubdate");
    Sel (AttrEq "meta" "name" "publication_date");
    Sel (HasAttr "time" "datetime");
    Sel (Class "date");
    Sel (Class "published");
    Sel (Class "pubdate");
    Sel (Class "timestamp") ]%string.

(** The value read off a matched set:
    [element.attr("content") || element.attr("datetime") || element.text()]. *)
Definition date_value (element : Selection) : option jsstring :=
  or_else (or_else (attr "content" element) (attr "datetime" element))
          (Some (text element)).

Fixpoint probe_dates (doc : Cheerio) (selectors : list selector)
  : option jsstring :=
  match selectors with
  | [] => None
  | selector :: rest =>
      let element := doc selector in
      if 0 <? sel_length element then
        let date := date_value element in
        match date with
        | Some (c :: d) => Some (trim (c :: d))
        | _ => probe_dates doc rest
        end
      else probe_dates doc rest
  end.

Definition extractPublicationDate (doc : Cheerio) : option jsstring :=
  probe_dates doc dateSelectors.

(** Content extraction of [scrapeContent] (lines 372-439). *)
Definition contentSelectors : list selector :=
  [ Sel (Tag "article"); Sel (Class "article"); Sel (Class "content");
    Sel (Id "content"); Sel (Tag "main"); Sel (Class "post");
    Sel (Class "entry"); Sel (Class "story"); Sel (Class "text");
    Sel (Class "body") ]%string.

(** The [for] loop over the containers; [break] on the first text
    longer than 200. *)
Fixpoint try_containers (doc : Cheerio) (selectors : list selector)
         (extractedText : jsstring) : jsstring :=
  match selectors with
  | [] => extractedText
  | selector :: rest =>
      let element := doc selector in
      if 0 <? sel_length element then
        let text := trim (text element) in
        if 200 <? len text then text
        else try_containers doc rest extractedText
      else try_containers doc rest extractedText
  end.

(** Lines 379-420: the text handed to the normaliser. *)
Definition extractText (doc : Cheerio) : jsstring :=
  let extractedText := try_containers doc contentSelectors [] in
  (* If no substantial content found in containers, extract from paragraphs *)
  let extractedText :=
    if negb (truthy extractedText) || (len extractedText <? 200) then
      let paragraphs := map_get (fun el => trim (el_text el)) (doc (Tag "p")) in
      trim (join (js " ") paragraphs)
    else extractedText in
  (* If still no content, try extracting from all text elements *)
  let extractedText :=
    if negb (truthy extractedText) || (len extractedText <? 100) then
      trim (text (doc (Tag "body")))
    else extractedText in
  extractedText.

Definition extract (doc : Cheerio) : ScrapeResult :=
  let publishedDate := extractPublicationDate doc in
  let title := page_title doc in
  let cleanedText := cleanContent (extractText doc) in
  (* Check if we have meaningful content *)
  if negb (truthy cleanedText) || (len cleanedText <? 100) then empty_result
  else {| r_content := cleanedText;
          r_publishedDate := publishedDate;
          r_title := Some title |}.

(** [scrapeContent] (lines 234-448). *)
Definition scrapeContent (P : Platform) (W : World) (url : jsstring)
  : M ScrapeResult :=
  scrapeContentWith P W extract url.

(** [{ title, url, content, publishedDate }] *)
Record ScrapedArticle : Type := {
  a_title : jsstring;
  a_url : jsstring;
  a_content : jsstring;
  a_publishedDate : option jsstring
}.

(** [scrapeMultipleUrls] (lines 504-533): the [for ... of] loop, with
    the array [scrapedResults] it pushes to. *)
Fixpoint scrapeMultipleUrls_loop (P : Platform) (W : World)
         (searchResults : list CandidateUrl)
         (scrapedResults : list ScrapedArticle) : M (list ScrapedArticle) :=
  match searchResults with
  | [] => ret scrapedResults
  | result :: rest =>
      (scrapedResults <-
         try_catch
           (scrapedContent <- scrapeContent P W (c_url result) ;;
            if truthy (r_content scrapedContent) then
              ret (scrapedResults ++
                     [ {| a_title := c_title result;
                          a_url := c_url result;
                          a_content := r_content scrapedContent;
                          a_publishedDate :=
                            or_else (r_publishedDate scrapedContent)
                                    (c_date result) |} ])
            else ret scrapedResults)
           (fun error => ret scrapedResults) ;;
       (* Add a small delay between requests to be respectful *)
       emit (Sleep 1000) ;;
       scrapeMultipleUrls_loop P W rest scrapedResults)%js
  end.

Definition scrapeMultipleUrls (P : Platform) (W : World)
           (searchResults : list CandidateUrl) : M (list ScrapedArticle) :=
  scrapeMultipleUrls_loop P W searchResults [].

(** A candidate succeeds when its [scrapeContent] returns a content that
    is not empty. *)
Definition succeeds (P : Platform) (W : World) (result : CandidateUrl) : bool :=
  match outcome P W extract (c_url result) with
  | Normal scraped => truthy (r_content scraped)
  | Throw _ => false
  end.

(** The article of a candidate that succeeds. *)
Definition article_of (P : Platform) (W : World) (result : CandidateUrl)
  : list ScrapedArticle :=
  match outcome P W extract (c_url result) with
  | Normal scraped =>
      if truthy (r_content scraped) then
        [ {| a_title := c_title result;
             a_url := c_url result;
             a_content := r_content scraped;
             a_publishedDate :=
               or_else (r_publishedDate scraped) (c_date result) |} ]
      else []
  | Throw _ => []
  end.

End Esm.

(* ================================================================== *)
(** * The CommonJS copy (src/unnamed/part_000) *)
(* ================================================================== *)

Module Cjs.

(** [cleanContent] (lines 340-346). *)
Definition cleanContent (text : jsstring) : jsstring :=
  trim
    (replace_each is_nbsp
       (replace_runs is_ws
          (replace_linebreaks text))).

(** [s.split("T")[0]] *)
Fixpoint before_T (s : jsstring) : jsstring :=
  match s with
  | [] => []
  | c :: t => if c =? 84 then [] else c :: before_T t
  end.

(** [extractPublicationDate] (lines 307-333). *)
Definition extractPublicationDate (P : Platform) (doc : Cheerio)
  : option jsstring :=
  let dateStr :=
    or_else
      (or_else
         (or_else
            (attr "content" (doc (AttrEq "meta" "property" "article:published_time")))
            (attr "content" (doc (AttrEq "meta" "name" "pubdate"))))
         (attr "content" (doc (AttrEq "meta" "name" "publication_date"))))
      (attr "content" (doc (AttrEq "meta" "name" "date"))) in
  (* If no metadata tags, look for time elements *)
  let dateStr :=
    if negb (truthy_opt dateStr) then
      let timeEl := first (doc (HasAttr "time" "datetime")) in
      if 0 <? sel_length timeEl then attr "datetime" timeEl else dateStr
    else dateStr in
  match dateStr with
  | Some (c :: d) =>
      match Date_toISOString P (c :: d) with
      | Some iso => Some (before_T iso)    (* Format as YYYY-MM-DD *)
      | None => None                       (* catch (e) { return null } *)
      end
  | _ => None
  end.

(** Content extraction of [scrapeContent] (lines 194-291). *)
Definition articleSelectors : list selector :=
  [ Sel (Tag "article"); Sel (Class "article"); Sel (Class "post");
    Sel (Class "entry"); Sel (Class "content"); Sel (Id "content");
    Sel (Class "article-content"); Sel (Class "post-content");
    Sel (Class "entry-content"); Sel (Tag "main");
    Sel (AttrIs "role" "main"); Sel (Class "main-content");
    Sel (Id "main-content"); Sel (Class "body-content");
    Sel (Id "body-content") ]%string.

(** The [for] loop over the containers: [mainContent] is overwritten by
    every container that exists; [break] on the first text longer than
    500. *)
Fixpoint try_containers (doc : Cheerio) (selectors : list selector)
         (mainContent : jsstring) : jsstring :=
  match selectors with
  | [] => mainContent
  | selector :: rest =>
      let element := doc selector in
      if 0 <? sel_length element then
        let mainContent := trim (text element) in
        if 500 <? len mainContent then mainContent
        else try_containers doc rest mainContent
      else try_containers doc rest mainContent
  end.

(** Lines 240-275: the comprehensive extraction. *)
Definition comprehensiveText (doc : Cheerio) (title : jsstring) : jsstring :=
  let trimmed := fun el => trim (el_text el) in
  (* 1. Get all paragraph text *)
  let paragraphText := join (js " ") (map_get trimmed (doc (Tag "p"))) in
  (* 2. Get text from headings *)
  let headingText :=
    join (js " ")
         (map_get trimmed
            (doc (Group [Tag "h1"; Tag "h2"; Tag "h3"; Tag "h4"; Tag "h5";
                         Tag "h6"]))) in
  (* 3. Get text from list items *)
  let listText := join (js " ") (map_get trimmed (doc (Tag "li"))) in
  (* 4. Get text from other common content elements *)
  let otherContentText :=
    join (js " ")
         (map_get (fun el => trim (el_text_less_p_div el))
            (doc (Group [Tag "article"; Tag "section"; Tag "main";
                         Class "content"; Id "content"]))) in
  (* Combine all the text sources *)
  title ++ js " " ++ headingText ++ js " " ++ paragraphText ++ js " "
        ++ listText ++ js " " ++ otherContentText.

(** Lines 200-276: [allText] as assembled from the container or from
    the comprehensive extraction. *)
Definition assembleText (doc : Cheerio) (title : jsstring) : jsstring :=
  let mainContent := try_containers doc articleSelectors [] in
  if 500 <? len mainContent then title ++ js " " ++ mainContent
  else comprehensiveText doc title.

(** Lines 278-281: the test of the fall back to the body text. *)
Definition falls_back (allText : jsstring) : bool :=
  negb (truthy allText) || (len (trim allText) <? 50).

(** Lines 200-281: the text handed to the normaliser. *)
Definition extractText (doc : Cheerio) (title : jsstring) : jsstring :=
  let allText := assembleText doc title in
  (* If we somehow got no text, fall back to body text *)
  if falls_back allText then trim (text (doc (Tag "body")))
  else allText.

Definition extract (P : Platform) (doc : Cheerio) : ScrapeResult :=
  let publishedDate := extractPublicationDate P doc in
  let title := page_title doc in
  let cleanText := cleanContent (extractText doc title) in
  {| r_content := cleanText;
     r_publishedDate := publishedDate;
     r_title := None |}.

(** [scrapeContent] (lines 71-300). *)
Definition scrapeContent (P : Platform) (W : World) (url : jsstring)
  : M ScrapeResult :=
  scrapeContentWith P W (extract P) url.

(** [{ ...result, content, publishedDate }] *)
Record ScrapedArticle : Type := {
  a_result : CandidateUrl;
  a_content : jsstring;
  a_publishedDate : option jsstring
}.

(** [scrapeMultipleUrls] (lines 353-385). *)
Fixpoint scrapeMultipleUrls_loop (P : Platform) (W : World)
         (searchResults : list CandidateUrl)
         (results : list ScrapedArticle) : M (list ScrapedArticle) :=
  match searchResults with
  | [] => ret results
  | result :: rest =>
      (results <-
         try_catch
           (skip <- lift (isHomepage P (c_url result)) ;;
            (* Skip if the URL is a homepage *)
            if skip then ret results    (* continue *)
            else
              scraped <- scrapeContent P W (c_url result) ;;
              (* Only include content that has text *)
              if truthy (r_content scraped) then
                ret (results ++
                       [ {| a_result := result;
                            a_content := r_content scraped;
                            a_publishedDate := r_publishedDate scraped |} ])
              else ret results)
           (fun error => ret results) ;;
       scrapeMultipleUrls_loop P W rest results)%js
  end.

Definition scrapeMultipleUrls (P : Platform) (W : World)
           (searchResults : list CandidateUrl) : M (list ScrapedArticle) :=
  scrapeMultipleUrls_loop P W searchResults [].

(** A candidate succeeds when its [scrapeContent] returns a content that
    is not empty. *)
Definition succeeds (P : Platform) (W : World) (result : CandidateUrl) : bool :=
  match outcome P W (extract P) (c_url result) with
  | Normal scraped => truthy (r_content scraped)
  | Throw _ => false
  end.

(** The article of a candidate that succeeds. *)
Definition article_of (P : Platform) (W : World) (result : CandidateUrl)
  : list ScrapedArticle :=
  match outcome P W (extract P) (c_url result) with
  | Normal scraped =>
      if truthy (r_content scraped) then
        [ {| a_result := result;
             a_content := r_content scraped;
             a_publishedDate := r_publishedDate scraped |} ]
      else []
  | Throw _ => []
  end.

End Cjs.

(* ================================================================== *)
(** * Notions used in the statements *)
(* ================================================================== *)

(** Two paths that differ in the case of ASCII letters only. *)
Definition same_ignoring_case (a b : jsstring) : Prop :=
  map (canon true) a = map (canon true) b.

(** The names of the boilerplate pages. *)
Definition boilerplate : list string :=
  [ "about"; "contact"; "faq"; "help"; "support"; "terms"; "privacy";
    "login"; "signup"; "register"; "account" ]%string.

(** Navigation attempts among the calls. *)
Definition is_Goto (e : Event) : bool :=
  match e with Goto _ _ => true | _ => false end.


(** The calls of a batch in the ES-module copy: those of each candidate,
    each followed by the delay. *)
Definition esm_batch_events (P : Platform) (W : World) (rs : list CandidateUrl)
  : list Event :=
  flat_map (fun c => events P W Esm.extract (c_url c) ++ [Sleep 1000]) rs.

(** The first element of a list at which [f] has a value. *)
Fixpoint first_some {A B : Type} (f : A -> option B) (l : list A) : option B :=
  match l with
  | [] => None
  | x :: rest =>
      match f x with
      | Some y => Some y
      | None => first_some f rest
      end
  end.

(** The value a source of the ES-module copy holds in a document, when it
    holds one that is not empty. *)
Definition esm_source_value (doc : Cheerio) (source : selector)
  : option jsstring :=
  match doc source with
  | [] => None
  | element =>
      match Esm.date_value element with
      | Some (c :: d) => Some (c :: d)
      | _ => None
      end
  end.

(** The sources the CommonJS copy reads, in its order, each with the
    attribute that carries the date. *)
Definition cjs_sources : list (selector * string) :=
  [ (Sel (AttrEq "meta" "property" "article:published_time"), "content");
    (Sel (AttrEq "meta" "name" "pubdate"), "content");
    (Sel (AttrEq "meta" "name" "publication_date"), "content");
    (Sel (AttrEq "meta" "name" "date"), "content");
    (Sel (HasAttr "time" "datetime"), "datetime") ]%string.

(** The value a source of the CommonJS copy holds in a document, when it
    holds one that is not empty. *)
Definition cjs_source_value (doc : Cheerio) (source : selector * string)
  : option jsstring :=
  match attr (snd source) (doc (fst source)) with
  | Some (c :: d) => Some (c :: d)
  | _ => None
  end.

(** [meta[property=article:published_time]] *)
Definition published_time : selector :=
  Sel (AttrEq "meta" "property" "article:published_time")%string.

(** The text a container offers: the trimmed text of its matched set,
    when the set is not empty and the text is longer than the bar. *)
Definition container_text (bar : N) (doc : Cheerio) (container : selector)
  : option jsstring :=
  match doc container with
  | [] => None
  | element =>
      let t := trim (text element) in
      if bar <? len t then Some t else None
  end.

(** The paragraph text of the ES-module copy. *)
Definition esm_paragraph_text (doc : Cheerio) : jsstring :=
  trim (join (js " ") (map_get (fun el => trim (el_text el)) (doc (Tag "p")))).

(* ================================================================== *)
(** * Sample platform, documents and sites *)
(* ================================================================== *)

Module Sample.

(** [split_at stop s]: the part of [s] before the first character of
    the class, and the rest from that character on. *)
Fixpoint split_at (stop : jschar -> bool) (s : jsstring) : jsstring * jsstring :=
  match s with
  | [] => ([], [])
  | c :: t =>
      if stop c then ([], s)
      else let (a, b) := split_at stop t in (c :: a, b)
  end.

Definition is_alpha (c : jschar) : bool :=
  ((65 <=? c) && (c <=? 90)) || ((97 <=? c) && (c <=? 122)).

(** The pathname of a plain absolute URL [scheme://host/path?query#fragment]
    with an ASCII path that needs no escaping and has no dot segments;
    on such input the URL Standard gives the same pathname, and it
    fails, as this does, on a string without a scheme. *)
Definition pathname (url : jsstring) : option jsstring :=
  let (scheme, rest) := split_at (fun c => c =? 58) url in
  match rest with
  | 58 :: 47 :: 47 :: after =>
      if truthy scheme && forallb is_alpha scheme then
        let (host, tail) :=
          split_at (fun c => (c =? 47) || (c =? 63) || (c =? 35)) after in
        if truthy host then
          let (path, _) := split_at (fun c => (c =? 63) || (c =? 35)) tail in
          Some (match path with [] => js "/" | _ => path end)
        else None
      else None
  | _ => None
  end.

(** [toISOString] of the one date string the examples use. *)
Definition toISOString (d : jsstring) : option jsstring :=
  if str_eqb d (js "2025-06-19T10:00:00Z") then
    Some (js "2025-06-19T10:00:00.000Z")
  else None.

Definition platform : Platform :=
  {| URL_pathname := pathname; Date_toISOString := toISOString |}.

Definition simple_eqb (a b : simple_selector) : bool :=
  match a, b with
  | Tag x, Tag y => String.eqb x y
  | Class x, Class y => String.eqb x y
  | Id x, Id y => String.eqb x y
  | HasAttr t x, HasAttr u y => String.eqb t u && String.eqb x y
  | AttrEq t x v, AttrEq u y w =>
      String.eqb t u && String.eqb x y && String.eqb v w
  | AttrIs x v, AttrIs y w => String.eqb x y && String.eqb v w
  | _, _ => false
  end.

Fixpoint group_eqb (a b : list simple_selector) : bool :=
  match a, b with
  | [], [] => true
  | x :: a', y :: b' => simple_eqb x y && group_eqb a' b'
  | _, _ => false
  end.

Definition selector_eqb (a b : selector) : bool :=
  match a, b with
  | Sel x, Sel y => simple_eqb x y
  | Group x, Group y => group_eqb x y
  | _, _ => false
  end.

(** A document given by the matched sets of the selectors that match
    anything. *)
Definition document (table : list (selector * Selection)) : Cheerio :=
  fun sel =>
    match find (fun kv => selector_eqb (fst kv) sel) table with
    | Some kv => snd kv
    | None => []
    end.

Definition markup (table : list (selector * Selection)) : Markup :=
  {| after_removing := fun _ => document table |}.

(** An element that is only text. *)
Definition element (t : jsstring) : Element :=
  {| el_text := t; el_attrs := []; el_text_less_p_div := t |}.

(** An element whose text all sits in [p] or [div] descendants. *)
Definition wrapper (t : jsstring) : Element :=
  {| el_text := t; el_attrs := []; el_text_less_p_div := [] |}.

Definition meta (value : jsstring) : Element :=
  {| el_text := []; el_attrs := [("content"%string, value)];
     el_text_less_p_div := [] |}.

(** [n] copies of a character. *)
Definition chars (n : nat) (c : jschar) : jsstring := repeat c n.

(** A site that serves [m] at the first attempt. *)
Definition serving (m : Markup) : Site :=
  {| launch_ok := true; newPage_ok := true;
     setDefaultNavigationTimeout_ok := true;
     setRequestInterception_ok := true; setUserAgent_ok := true;
     goto := fun _ => Resolves (Some {| status := Some 200 |});
     page_content := Some m; close_ok := true |}.

(** A site whose navigation never settles. *)
Definition hanging : Site :=
  {| launch_ok := true; newPage_ok := true;
     setDefaultNavigationTimeout_ok := true;
     setRequestInterception_ok := true; setUserAgent_ok := true;
     goto := fun _ => Pending;
     page_content := None; close_ok := true |}.

(** The same, where releasing the session fails as well. *)
Definition hanging_close_fails : Site :=
  {| launch_ok := true; newPage_ok := true;
     setDefaultNavigationTimeout_ok := true;
     setRequestInterception_ok := true; setUserAgent_ok := true;
     goto := fun _ => Pending;
     page_content := None; close_ok := false |}.

(** An article page: one [article] container of 250 characters held by
    a [div], and one paragraph of 50 characters elsewhere in the body. *)
Definition article_250_p_50 : list (selector * Selection) :=
  [ (Sel (Tag "article"), [wrapper (chars 250 97)]);
    (Sel (Tag "p"), [element (chars 50 98)]);
    (Sel (Tag "body"), [element (chars 250 97 ++ chars 50 98)%list]);
    (Group [Tag "article"; Tag "section"; Tag "main"; Class "content";
            Id "content"], [wrapper (chars 250 97)]) ]%string.

(** A page with very little text. *)
Definition tiny_page : list (selector * Selection) :=
  [ (Sel (Tag "body"), [element (js "hi")]) ]%string.

(** A world: one site per URL of the examples. *)
Definition world (sites : list (jsstring * Site)) (default : Site) : World :=
  fun url =>
    match find (fun kv => str_eqb (fst kv) url) sites with
    | Some kv => snd kv
    | None => default
    end.

Definition candidate (url : string) : CandidateUrl :=
  {| c_url := js url; c_title := js url; c_date := None |}.

(** Five candidates: a root page, an article, a page that never loads,
    a boilerplate page, another article. *)
Definition five : list CandidateUrl :=
  map candidate
    [ "https://news.example/"; "https://news.example/2025/06/19/first/";
      "https://news.example/2025/06/19/dead/"; "https://news.example/About/";
      "https://news.example/2025/06/19/second/" ]%string.

Definition five_world : World :=
  world
    [ (js "https://news.example/2025/06/19/first/",
       serving (markup article_250_p_50));
      (js "https://news.example/2025/06/19/second/",
       serving (markup article_250_p_50)) ]
    hanging.

End Sample.

(** A document whose only date is the text of a [.date] container. *)
Definition date_class_only : Cheerio :=
  Sample.document [ (Sel (Class "date"), [Sample.element (js "2025-06-19")]) ]%string.

(** A document whose [article:published_time] meta holds a date. *)
Definition published_doc : Cheerio :=
  Sample.document [ (published_time, [Sample.meta (js "2025-06-19T10:00:00Z")]) ].

(** A world whose third sample page holds two characters of text. *)
Definition short_world : World :=
  Sample.world
    [ (js "https://news.example/2025/06/19/dead/",
       Sample.serving (Sample.markup Sample.tiny_page)) ]
    (Sample.serving (Sample.markup Sample.article_250_p_50)).

(** A page titled A, two spaces, B, with an article of 501 characters. *)
Definition spaced_title_page : list (selector * Selection) :=
  [ (Sel (Tag "title"), [Sample.element [65; SP; SP; 66]]);
    (Sel (Tag "article"), [Sample.element (Sample.chars 501 97)]) ]%string.

(* ================================================================== *)
(** * Delivery and the main process: outcomes and actions *)
(* ================================================================== *)

(** How an asynchronous call of the main process ends: it returns, it
    throws an [Error] with a message, or the process exits
    ([process.exit(code)], after which nothing runs). *)
Inductive result (A : Type) : Type :=
| Returns (a : A)
| Raises (message : jsstring)
| Exits (code : N).
Arguments Raises {A} message.
Arguments Exits {A} code.

(** How a promise of a collaborator settles. *)
Inductive settled (A : Type) : Type :=
| Fulfilled (a : A)
| Rejected (message : jsstring).
Arguments Rejected {A} message.

(** The request handed to [client.messages.create]. *)
Record Request : Type := {
  q_from : jsstring;
  q_body : jsstring;
  q_to : jsstring
}.

(** The calls the main process makes on its collaborators. *)
Inductive Action : Type :=
| Initialize                               (* [whatsappWebService.initialize()] *)
| FetchSearchResults
| IsUrlProcessedBefore (url : jsstring)
| ScrapeMultipleUrls (urls : list jsstring)
| ProcessArticles (urls : list jsstring)
| MarkUrlAsProcessed (url : jsstring)
| MessagesCreate (request : Request)       (* [client.messages.create] *)
| SendMessage (recipient message : jsstring)  (* [whatsappWebService.sendMessage] *)
| ProcessExit (code : N).

(** A run: how it ends and the calls it made, oldest first. *)
Definition Run (A : Type) : Type := (result A * list Action)%type.

Definition returns {A} (a : A) : Run A := (Returns a, []).

Definition raises {A} (message : jsstring) : Run A := (Raises message, []).

Definition andThen {A B} (m : Run A) (k : A -> Run B) : Run B :=
  match m with
  | (Returns a, t) => let (r, t') := k a in (r, t ++ t')
  | (Raises message, t) => (Raises message, t)
  | (Exits code, t) => (Exits code, t)
  end.

(** [try { m } catch (error) { h error.message }] *)
Definition catching {A} (m : Run A) (h : jsstring -> Run A) : Run A :=
  match m with
  | (Raises message, t) => let (r, t') := h message in (r, t ++ t')
  | other => other
  end.

(** An awaited call on a collaborator: it is recorded, and it returns
    or throws as the promise settles. *)
Definition act {A} (a : Action) (p : settled A) : Run A :=
  (match p with
   | Fulfilled v => Returns v
   | Rejected message => Raises message
   end, [a]).

(** [process.exit(code)] *)
Definition exit {A} (code : N) : Run A := (Exits code, [ProcessExit code]).

Declare Scope run_scope.
Delimit Scope run_scope with run.
Notation "x <- m ;; k" := (andThen m (fun x => k))
  (at level 61, m at next level, right associativity) : run_scope.
Notation "m ;; k" := (andThen m (fun _ => k))
  (at level 61, right associativity) : run_scope.

(** An article with its summary, as [processArticles] returns it. *)
Record Summarized : Type := {
  s_url : jsstring;
  s_summary : jsstring
}.

(** The current date as [toLocaleDateString("en-US", ...)] prints it is an
    input of the functions below ([dateFormatted]). *)

(* ================================================================== *)
(** * Messenger (src/src/messenger.js, first document) *)
(* ================================================================== *)

Module Messenger.

(** The environment variables read ([None]: not set). *)
Record Env : Type := {
  TWILIO_ACCOUNT_SID : option jsstring;
  TWILIO_AUTH_TOKEN : option jsstring;
  TWILIO_PHONE_NUMBER : option jsstring;
  RECIPIENT_PHONE_NUMBER : option jsstring
}.

(** The messaging service: [client] tells whether the module-level client
    was initialised (lines 5-13); [create] is what
    [client.messages.create] does with a request: it resolves with a
    message, given by its [sid], or rejects with an error message. *)
Record Twilio : Type := {
  client : bool;
  create : Request -> settled jsstring
}.

(** What [sendWhatsAppMessage] returns. *)
Inductive SendResult : Type :=
| Sent (sid : jsstring)                   (* the message [create] resolved with *)
| NotSent (reason : jsstring).            (* [{ status: "not_sent", reason }] *)

(** What [sendArticleSummaries] returns. *)
Inductive SummaryResult : Type :=
| Delivered (r : SendResult)
| FormatOnly (formattedMessage : jsstring).  (* [{ status: "format_only", formattedMessage }] *)

(** [${v}] for an environment variable. *)
Definition interpolate (v : option jsstring) : jsstring :=
  match v with
  | Some s => s
  | None => js "undefined"
  end.

(** The mobile-phone emoji U+1F4F1, as its surrogate pair. *)
Definition phone_emoji : jsstring := [55357; 56561].

(** [formatMessage] (lines 36-61). *)
Definition formatMessage (dateFormatted : jsstring) (articles : list Summarized)
  : jsstring :=
  match articles with
  | [] => js "No EdTech news found."
  | first_article :: _ =>
      (* we'll just use the first article's summary *)
      let summary := s_summary first_article in
      let message :=
        phone_emoji ++ js " *EDTECH UPDATE* " ++ phone_emoji ++ [LF]
          ++ js "*" ++ dateFormatted ++ js "*" ++ [LF; LF] in
      message ++ summary ++ [LF]
  end.

Definition MAX_LENGTH : N := 1600.

(** Lines 94-104: the message is truncated rather than split. *)
Definition messageToSend (message : jsstring) : jsstring :=
  if MAX_LENGTH <? len message then
    firstn (N.to_nat (MAX_LENGTH - 3)) message ++ js "..."
  else message.

(** [sendWhatsAppMessage] (lines 68-135). *)
Definition sendWhatsAppMessage (E : Env) (T : Twilio) (message : jsstring)
  : Run SendResult :=
  catching
    ((* Check if Twilio is configured *)
     if negb (truthy_opt (TWILIO_ACCOUNT_SID E))
        || negb (truthy_opt (TWILIO_AUTH_TOKEN E))
        || negb (truthy_opt (TWILIO_PHONE_NUMBER E))
        || negb (truthy_opt (RECIPIENT_PHONE_NUMBER E))
     then returns (NotSent (js "configuration_missing"))
     (* Check if client was initialized *)
     else if negb (client T) then returns (NotSent (js "client_not_initialized"))
     else
       let request :=
         {| q_from := js "whatsapp:" ++ interpolate (TWILIO_PHONE_NUMBER E);
            q_body := messageToSend message;
            q_to := js "whatsapp:" ++ interpolate (RECIPIENT_PHONE_NUMBER E) |} in
       catching
         (sid <- act (MessagesCreate request) (create T request) ;;
          returns (Sent sid))%run
         (fun twilioError => raises twilioError))
    (fun error => raises (js "Failed to send WhatsApp message: " ++ error)).

(** [sendArticleSummaries] (lines 142-161). *)
Definition sendArticleSummaries (E : Env) (T : Twilio) (dateFormatted : jsstring)
           (articles : list Summarized) : Run SummaryResult :=
  catching
    (let message := formatMessage dateFormatted articles in
     catching
       (r <- sendWhatsAppMessage E T message ;;
        returns (Delivered r))%run
       (fun sendError => returns (FormatOnly message)))
    (fun error => raises error).

End Messenger.

(* ================================================================== *)
(** * The main process (src/src/index.js and src/unnamed/part_001) *)
(* ================================================================== *)

(** The collaborators of [main] whose code is in other modules: the
    search provider, the processed-URL store and the summariser.
    [fetchSearchResults] stands for the call with the arguments of
    [main]. *)
Record Collaborators : Type := {
  fetchSearchResults : settled (list CandidateUrl);
  isUrlProcessedBefore : jsstring -> settled bool;
  processArticles : list Esm.ScrapedArticle -> settled (list Summarized);
  markUrlAsProcessed : jsstring -> settled unit
}.

(** [!list.length] *)
Definition no_length {A} (l : list A) : bool :=
  match l with [] => true | _ => false end.

(** Lines 45-54 of index.js (49-58 of part_001): the loop that keeps the
    results not processed before, with the array [newResults] it pushes
    to. *)
Fixpoint filter_new (C : Collaborators) (searchResults newResults : list CandidateUrl)
  : Run (list CandidateUrl) :=
  match searchResults with
  | [] => returns newResults
  | result :: rest =>
      (alreadyProcessed <-
         act (IsUrlProcessedBefore (c_url result))
             (isUrlProcessedBefore C (c_url result)) ;;
       if negb alreadyProcessed then filter_new C rest (newResults ++ [result])
       else filter_new C rest newResults)%run
  end.

(** The loops that mark URLs as processed. *)
Fixpoint mark_all (C : Collaborators) (urls : list jsstring) : Run unit :=
  match urls with
  | [] => returns tt
  | url :: rest =>
      (act (MarkUrlAsProcessed url) (markUrlAsProcessed C url) ;;
       mark_all C rest)%run
  end.

(** [await scrapeMultipleUrls(newResults)], with the scraper of the
    ES-module copy, which both files import. *)
Definition scrape (P : Platform) (W : World) (newResults : list CandidateUrl)
  : Run (list Esm.ScrapedArticle) :=
  act (ScrapeMultipleUrls (map c_url newResults))
      (match fst (Esm.scrapeMultipleUrls P W newResults init) with
       | Normal scrapedResults => Fulfilled scrapedResults
       | Throw _ => Rejected []
       end).

Module Main.

(** [main] of src/src/index.js (lines 19-106).  The [catch] logs the
    error and throws it again. *)
Definition main (C : Collaborators) (P : Platform) (W : World)
           (E : Messenger.Env) (T : Messenger.Twilio) (dateFormatted : jsstring)
  : Run unit :=
  catching
    ((* Step 1: Fetch search results *)
     searchResults <- act FetchSearchResults (fetchSearchResults C) ;;
     if no_length searchResults then returns tt
     else
       (* Filter out URLs that have been processed before *)
       newResults <- filter_new C searchResults [] ;;
       if no_length newResults then returns tt
       else
         (* Step 2: Scrape content from each URL *)
         scrapedResults <- scrape P W newResults ;;
         if no_length scrapedResults then returns tt
         else
           (* Step 3: Process and summarize the content *)
           processedArticles <-
             act (ProcessArticles (map Esm.a_url scrapedResults))
                 (processArticles C scrapedResults) ;;
           if no_length processedArticles then returns tt
           else
             (* Mark URLs as processed after successful processing *)
             mark_all C (map s_url processedArticles) ;;
             (* Step 4: Send the combined summaries via WhatsApp *)
             Messenger.sendArticleSummaries E T dateFormatted processedArticles ;;
             returns tt)%run
    (fun error => raises error).

End Main.

Module WebMain.

(** The WhatsApp Web service of src/unnamed/part_001 and the recipient it
    reads from the environment. *)
Record WebService : Type := {
  initialize : settled unit;
  sendMessage : jsstring -> jsstring -> settled unit;
  DEFAULT_RECIPIENT_NUMBER : option jsstring
}.

(** The four characters that open and close the header in this file. *)
Definition header_mark : jsstring := [240; 376; 8220; 177].

(** Lines 104-118: the message. *)
Definition message_of (dateFormatted : jsstring) (processedArticles : list Summarized)
  : jsstring :=
  let summaryText :=
    or_str (match processedArticles with
            | first_article :: _ => s_summary first_article
            | [] => []
            end)
           (js "No summaries generated.") in
  header_mark ++ js " *EDTECH UPDATE* " ++ header_mark ++ [LF]
    ++ js "*" ++ dateFormatted ++ js "*" ++ [LF; LF] ++ summaryText.

(** The [try] block of [main] of src/unnamed/part_001 (lines 23-137). *)
Definition try_block (C : Collaborators) (S : WebService) (P : Platform) (W : World)
           (dateFormatted : jsstring) : Run unit :=
  ((* Initialize WhatsApp Web service at the beginning *)
   act Initialize (initialize S) ;;
   (* Step 1: Fetch search results *)
   searchResults <- act FetchSearchResults (fetchSearchResults C) ;;
   if no_length searchResults then returns tt
   else
     (* Filter out URLs that have been processed before *)
     newResults <- filter_new C searchResults [] ;;
     if no_length newResults then returns tt
     else
       (* Step 2: Scrape content from each URL *)
       scrapedResults <- scrape P W newResults ;;
       if no_length scrapedResults then returns tt
       else
         (* Step 3: Process and summarize the content *)
         processedArticles <-
           act (ProcessArticles (map Esm.a_url scrapedResults))
               (processArticles C scrapedResults) ;;
         if no_length processedArticles then returns tt
         else
           (* Mark URLs as processed after successful processing *)
           mark_all C (map Esm.a_url scrapedResults) ;;
           (* Step 4: Send the combined summaries via WhatsApp Web *)
           let message := message_of dateFormatted processedArticles in
           match DEFAULT_RECIPIENT_NUMBER S with
           | Some (c :: n) =>
               let recipientNumber := c :: n in
               (* Send the message *)
               act (SendMessage recipientNumber message)
                   (sendMessage S recipientNumber message) ;;
               exit 0
           | _ => returns tt   (* [!recipientNumber] *)
           end)%run.

(** [main] of src/unnamed/part_001 (lines 19-142).  The [catch] logs the
    error and exits with code 1. *)
Definition main (C : Collaborators) (S : WebService) (P : Platform) (W : World)
           (dateFormatted : jsstring) : Run unit :=
  catching (try_block C S P W dateFormatted) (fun error => exit 1).

End WebMain.

(** The words of two lists, one after the other. *)
Definition products (A B : list jsstring) : list jsstring :=
  flat_map (fun x => map (app x) B) A.

(** The strings a pattern body matches, in canonical form: every
    expression of the classifier is free of repetition, so they are
    finitely many. *)
Fixpoint language (i : bool) (r : regex) : list jsstring :=
  match r with
  | Void => []
  | Eps => [[]]
  | Chr d => [[canon i d]]
  | Seq a b => products (language i a) (language i b)
  | Alt a b => language i a ++ language i b
  | Opt a => [] :: language i a
  end.

Definition skippable_paths : list jsstring :=
  map js
    [ "/";
      "/index.html"; "/index.php"; "/index.asp"; "/index.jsp";
      "/home.html"; "/home.php"; "/home.asp"; "/home.jsp";
      "/default.html"; "/default.php"; "/default.asp"; "/default.jsp";
      "/welcome.html"; "/welcome.php"; "/welcome.asp"; "/welcome.jsp";
      "/home"; "/home/"; "/main"; "/main/";
      "/about"; "/about/"; "/contact"; "/contact/"; "/faq"; "/faq/";
      "/help"; "/help/"; "/support"; "/support/"; "/terms"; "/terms/";
      "/privacy"; "/privacy/"; "/login"; "/login/"; "/signup"; "/signup/";
      "/register"; "/register/"; "/account"; "/account/" ]%string.

(** The characters of a text that are not whitespace, in order. *)
Definition ink (s : jsstring) : jsstring := filter (fun c => negb (is_ws c)) s.

Definition is_Sleep (e : Event) : bool :=
  match e with Sleep _ => true | _ => false end.
Definition is_Launch (e : Event) : bool :=
  match e with Launch _ => true | _ => false end.
Definition is_Close (e : Event) : bool :=
  match e with Close => true | _ => false end.

(** The number of calls of a kind among the calls made. *)
Definition count (kind : Event -> bool) (calls : list Event) : nat :=
  List.length (filter kind calls).

(** The calls of an invocation that loads a page it then rejects. *)
Definition rejected_events (url : jsstring) : list Event :=
  [ Launch 60000; NewPage; SetDefaultNavigationTimeout 60000;
    SetRequestInterception; SetUserAgent; Goto url 30000; Close ].

(** The session is set up: every call before the navigation resolves. *)
Definition set_up (s : Site) : Prop :=
  launch_ok s = true /\ newPage_ok s = true
  /\ setDefaultNavigationTimeout_ok s = true
  /\ setRequestInterception_ok s = true /\ setUserAgent_ok s = true.

(** The bounds a batch keeps, stated for the calls [calls] it makes and
    the [n] candidates it is given. *)
Definition within_bounds (calls : list Event) (n : nat) : Prop :=
  (count is_Launch calls <= n)%nat
  /\ (count is_Goto calls <= 3 * n)%nat
  /\ (count is_Close calls <= count is_Launch calls)%nat.

(** All four variables are set and not empty. *)
Definition configured (E : Messenger.Env) : bool :=
  truthy_opt (Messenger.TWILIO_ACCOUNT_SID E)
  && truthy_opt (Messenger.TWILIO_AUTH_TOKEN E)
  && truthy_opt (Messenger.TWILIO_PHONE_NUMBER E)
  && truthy_opt (Messenger.RECIPIENT_PHONE_NUMBER E).

(** A search result the store answers it has not processed before. *)
Definition unseen (C : Collaborators) (r : CandidateUrl) : bool :=
  match isUrlProcessedBefore C (c_url r) with
  | Fulfilled false => true
  | _ => false
  end.

(** The store answers for every search result. *)
Definition store_answers (C : Collaborators) (rs : list CandidateUrl) : Prop :=
  forall r, In r rs -> exists b, isUrlProcessedBefore C (c_url r) = Fulfilled b.

Definition checks (rs : list CandidateUrl) : list Action :=
  map (fun r => IsUrlProcessedBefore (c_url r)) rs.

Definition marks (urls : list jsstring) : list Action :=
  map MarkUrlAsProcessed urls.

(** The calls of a run of [main] of index.js in which every stage yields
    something. *)
Definition main_actions (C : Collaborators) (P : Platform) (W : World)
           (E : Messenger.Env) (T : Messenger.Twilio) (dateFormatted : jsstring)
           (rs : list CandidateUrl) (ps : list Summarized) : list Action :=
  let new := filter (unseen C) rs in
  let scraped := flat_map (Esm.article_of P W) new in
  FetchSearchResults :: checks rs
    ++ [ScrapeMultipleUrls (map c_url new)]
    ++ [ProcessArticles (map Esm.a_url scraped)]
    ++ marks (map s_url ps)
    ++ snd (Messenger.sendArticleSummaries E T dateFormatted ps).


(** A call of a collaborator of [main] of part_001 rejects with [e]. *)
Definition some_rejection (C : Collaborators) (S : WebMain.WebService)
           (e : jsstring) : Prop :=
  WebMain.initialize S = Rejected e
  \/ fetchSearchResults C = Rejected e
  \/ (exists url, isUrlProcessedBefore C url = Rejected e)
  \/ (exists scraped, processArticles C scraped = Rejected e)
  \/ (exists url, markUrlAsProcessed C url = Rejected e)
  \/ (exists recipient message, WebMain.sendMessage S recipient message = Rejected e).


(** The calls of a run of [main] of part_001 up to and including the
    marking, when every stage yields something. *)
Definition webmain_actions (C : Collaborators) (P : Platform) (W : World)
           (rs : list CandidateUrl) : list Action :=
  let new := filter (unseen C) rs in
  let scraped := flat_map (Esm.article_of P W) new in
  Initialize :: FetchSearchResults :: checks rs
    ++ [ScrapeMultipleUrls (map c_url new)]
    ++ [ProcessArticles (map Esm.a_url scraped)]
    ++ marks (map Esm.a_url scraped).

(* ================================================================== *)
(** * Sample sites, services and collaborators *)
(* ================================================================== *)

(** A site that answers the first attempt with status 404. *)
Definition not_found : Site :=
  {| launch_ok := true; newPage_ok := true;
     setDefaultNavigationTimeout_ok := true;
     setRequestInterception_ok := true; setUserAgent_ok := true;
     goto := fun _ => Resolves (Some {| status := Some 404 |});
     page_content := None; close_ok := true |}.

(** A site whose first attempt does not settle and whose second serves
    the sample article. *)
Definition second_try : Site :=
  {| launch_ok := true; newPage_ok := true;
     setDefaultNavigationTimeout_ok := true;
     setRequestInterception_ok := true; setUserAgent_ok := true;
     goto := fun n => if n =? 1 then Pending
                      else Resolves (Some {| status := Some 200 |});
     page_content := Some (Sample.markup Sample.article_250_p_50);
     close_ok := true |}.

(** A complete configuration. *)
Definition sample_env : Messenger.Env :=
  {| Messenger.TWILIO_ACCOUNT_SID := Some (js "AC0");
     Messenger.TWILIO_AUTH_TOKEN := Some (js "token");
     Messenger.TWILIO_PHONE_NUMBER := Some (js "+14155238886");
     Messenger.RECIPIENT_PHONE_NUMBER := Some (js "+15550100") |}.

(** The same without a recipient. *)
Definition sample_env_no_recipient : Messenger.Env :=
  {| Messenger.TWILIO_ACCOUNT_SID := Some (js "AC0");
     Messenger.TWILIO_AUTH_TOKEN := Some (js "token");
     Messenger.TWILIO_PHONE_NUMBER := Some (js "+14155238886");
     Messenger.RECIPIENT_PHONE_NUMBER := None |}.

(** A service that accepts every message, and one that rejects them. *)
Definition accepting : Messenger.Twilio :=
  {| Messenger.client := true;
     Messenger.create := fun _ => Fulfilled (js "SM1") |}.

Definition rejecting : Messenger.Twilio :=
  {| Messenger.client := true;
     Messenger.create := fun _ => Rejected (js "ETIMEDOUT") |}.

(** A message of 2000 characters. *)
Definition long_message : jsstring := Sample.chars 2000 97.

(** Collaborators: the search returns the five sample candidates, the
    store has seen the last of them, every article gets a summary and
    every mark succeeds. *)
Definition sample_collaborators : Collaborators :=
  {| fetchSearchResults := Fulfilled Sample.five;
     isUrlProcessedBefore :=
       fun url => Fulfilled (str_eqb url (js "https://news.example/2025/06/19/second/"));
     processArticles :=
       fun scraped =>
         Fulfilled (map (fun a => {| s_url := Esm.a_url a;
                                     s_summary := js "summary" |}) scraped);
     markUrlAsProcessed := fun _ => Fulfilled tt |}.

(** Collaborators whose search fails. *)
Definition failing_search : Collaborators :=
  {| fetchSearchResults := Rejected (js "quota exceeded");
     isUrlProcessedBefore := fun _ => Fulfilled false;
     processArticles := fun _ => Fulfilled [];
     markUrlAsProcessed := fun _ => Fulfilled tt |}.

(** A WhatsApp Web service without a recipient number, and one with. *)
Definition web_no_recipient : WebMain.WebService :=
  {| WebMain.initialize := Fulfilled tt;
     WebMain.sendMessage := fun _ _ => Fulfilled tt;
     WebMain.DEFAULT_RECIPIENT_NUMBER := None |}.

Definition web_service : WebMain.WebService :=
  {| WebMain.initialize := Fulfilled tt;
     WebMain.sendMessage := fun _ _ => Fulfilled tt;
     WebMain.DEFAULT_RECIPIENT_NUMBER := Some (js "15550100") |}.

Definition first_url : jsstring := js "https://news.example/2025/06/19/first/".

(** The articles scraped from the sample candidates the store has not
    seen, and their summaries. *)
Definition sample_scraped : list Esm.ScrapedArticle :=
  flat_map (Esm.article_of Sample.platform Sample.five_world)
           (filter (unseen sample_collaborators) Sample.five).

Definition sample_summaries : list Summarized :=
  map (fun a => {| s_url := Esm.a_url a; s_summary := js "summary" |})
      sample_scraped.

Definition sample_date : jsstring := js "June 19, 2025".

(** The request made for the long message under the sample configuration. *)
Definition long_request : Request :=
  {| q_from := js "whatsapp:+14155238886";
     q_body := firstn 1597 long_message ++ js "...";
     q_to := js "whatsapp:+15550100" |}.

(** A site whose browser starts and whose release fails. *)
Definition close_fails_world : World := fun _ => Sample.hanging_close_fails.

(* ================================================================== *)
(** * Properties *)
(* ================================================================== *)

Example esm_clean_sample :
  Esm.cleanContent [97; 10; 10; 9; 98; 32; 32; 32; 99] = js "a b c".
Proof. reflexivity. Qed.

Example cjs_clean_sample :
  Cjs.cleanContent [97; 13; 10; 160; 9; 98; 32; 32; 32; 99; 10] = js "a b c".
Proof. reflexivity. Qed.

(* ------------------------------------------------------------------ *)
(** ** Whitespace, trimming and words *)
(* ------------------------------------------------------------------ *)

Lemma is_ws_SP : is_ws SP = true.
Proof. reflexivity. Qed.

Lemma is_lf_ws c : is_lf c = true -> is_ws c = true /\ c <> SP.
Proof.
  unfold is_lf, LF, SP. intros H. apply N.eqb_eq in H. subst c.
  split; [reflexivity | discriminate].
Qed.

Lemma is_tab_ws c : is_tab c = true -> is_ws c = true /\ c <> SP.
Proof.
  unfold is_tab, TAB, SP. intros H. apply N.eqb_eq in H. subst c.
  split; [reflexivity | discriminate].
Qed.

Lemma is_nbsp_ws c : is_nbsp c = true -> is_ws c = true /\ c <> SP.
Proof.
  unfold is_nbsp, NBSP, SP. intros H. apply N.eqb_eq in H. subst c.
  split; [reflexivity | discriminate].
Qed.

Lemma collapsed_replace_runs b s : collapsed (replace_runs_from is_ws b s).
Proof.
  revert b. induction s as [|c t IH]; intros b x Hin Hx; simpl in Hin.
  - contradiction.
  - destruct (is_ws c) eqn:Hc.
    + destruct b; simpl in Hin.
      * eapply IH; eauto.
      * destruct Hin as [<-|Hin]; [reflexivity | eapply IH; eauto].
    + simpl in Hin. destruct Hin as [<-|Hin]; [congruence | eapply IH; eauto].
Qed.

(** A class that misses every character of the text leaves it alone. *)
Lemma replace_runs_absent p b s :
  (forall c, In c s -> p c = false) -> replace_runs_from p b s = s.
Proof.
  revert b. induction s as [|c t IH]; intros b H; simpl; [reflexivity|].
  rewrite (H c (or_introl eq_refl)). f_equal. apply IH.
  intros x Hx. apply H. now right.
Qed.

Lemma replace_each_absent p s :
  (forall c, In c s -> p c = false) -> replace_each p s = s.
Proof.
  induction s as [|c t IH]; intros H; simpl; [reflexivity|].
  rewrite (H c (or_introl eq_refl)). f_equal. apply IH.
  intros x Hx. apply H. now right.
Qed.

Lemma collapsed_absent p s :
  (forall c, p c = true -> is_ws c = true /\ c <> SP) ->
  collapsed s -> forall c, In c s -> p c = false.
Proof.
  intros Hp Hs c Hin. destruct (p c) eqn:E; [|reflexivity].
  destruct (Hp c E) as [Hw Hne]. elim Hne. now apply Hs.
Qed.

(** Structural equations of [trimEnd]. *)
Lemma dropWhile_app_last p l c :
  dropWhile p (l ++ [c]) =
  match dropWhile p l with
  | [] => if p c then [] else [c]
  | r => r ++ [c]
  end.
Proof.
  induction l as [|x l IH]; simpl.
  - reflexivity.
  - destruct (p x); [exact IH | reflexivity].
Qed.

Lemma trimEnd_nil : trimEnd [] = [].
Proof. reflexivity. Qed.

Lemma trimEnd_cons c t :
  trimEnd (c :: t) =
  match trimEnd t with
  | [] => if is_ws c then [] else [c]
  | r => c :: r
  end.
Proof.
  unfold trimEnd. simpl rev. rewrite dropWhile_app_last.
  destruct (dropWhile is_ws (rev t)) as [|x r] eqn:E.
  - simpl. destruct (is_ws c); reflexivity.
  - rewrite rev_app_distr. simpl.
    destruct (rev r ++ [x]) eqn:E'; [|reflexivity].
    destruct (rev r); discriminate.
Qed.

Lemma trimEnd_cons_nonws c t : is_ws c = false -> trimEnd (c :: t) = c :: trimEnd t.
Proof. intros H. rewrite trimEnd_cons, H. destruct (trimEnd t); reflexivity. Qed.

Lemma words_word s : Forall word (words s).
Proof.
  induction s as [|c t IH]; simpl; [constructor|].
  destruct (is_ws c) eqn:Hc; [exact IH|].
  assert (Hone : word [c]).
  { split; [discriminate|]. intros x [<-|[]]; exact Hc. }
  destruct t as [|d t']; [repeat constructor; apply Hone|].
  destruct (is_ws d) eqn:Hd; [constructor; [exact Hone | exact IH]|].
  destruct (words (d :: t')) as [|w ws] eqn:E; [repeat constructor; apply Hone|].
  inversion IH as [|? ? Hw Hws]; subst. constructor; [|exact Hws].
  split; [discriminate|]. intros x [<-|Hx]; [exact Hc | now apply Hw].
Qed.

Lemma join_nil_iff l : Forall word l -> (join [SP] l = [] <-> l = []).
Proof.
  intros H. split; [|intros ->; reflexivity].
  destruct l as [|w l]; [reflexivity|]. intros E. exfalso.
  inversion H as [|? ? [Hw _] _]; subst.
  destruct l; simpl in E; [contradiction|].
  destruct w; [contradiction | discriminate].
Qed.

Lemma join_cons w l :
  join [SP] (w :: l) = w ++ match l with [] => [] | _ => SP :: join [SP] l end.
Proof. destruct l; simpl; [now rewrite app_nil_r | reflexivity]. Qed.

(** After the leading whitespace is gone, the collapsed text is the
    collapsed text "inside a run". *)
Lemma trimStart_replace_runs b s :
  trimStart (replace_runs_from is_ws b s) = replace_runs_from is_ws true s.
Proof.
  unfold trimStart. revert b.
  induction s as [|c t IH]; intros b; cbn [replace_runs_from].
  - reflexivity.
  - destruct (is_ws c) eqn:Hc.
    + destruct b; cbn [dropWhile]; [apply IH | rewrite is_ws_SP; apply IH].
    + cbn [dropWhile]. rewrite Hc. reflexivity.
Qed.

Lemma replace_runs_false_shape s :
  replace_runs_from is_ws false s =
  match s with
  | [] => []
  | d :: _ =>
      if is_ws d then SP :: replace_runs_from is_ws true s
      else replace_runs_from is_ws true s
  end.
Proof.
  destruct s as [|d t]; simpl; [reflexivity|].
  destruct (is_ws d); reflexivity.
Qed.

Lemma words_head_nonws d t : is_ws d = false -> words (d :: t) <> [].
Proof.
  intros Hd. simpl. rewrite Hd. destruct t as [|e t']; [discriminate|].
  destruct (is_ws e); [discriminate|].
  destruct (words (e :: t')); discriminate.
Qed.

Lemma trimEnd_replace_runs s :
  trimEnd (replace_runs_from is_ws true s) = normalize_spec s.
Proof.
  unfold normalize_spec.
  induction s as [|c t IH]; [reflexivity|].
  cbn [replace_runs_from words]. destruct (is_ws c) eqn:Hc; [exact IH|].
  rewrite trimEnd_cons_nonws by exact Hc.
  rewrite replace_runs_false_shape.
  destruct t as [|d t']; [reflexivity|].
  destruct (is_ws d) eqn:Hd.
  - rewrite trimEnd_cons, IH, is_ws_SP, join_cons.
    pose proof (join_nil_iff (words_word (d :: t'))) as Hj.
    destruct (words (d :: t')) as [|w ws] eqn:E.
    + reflexivity.
    + assert (Hne : join [SP] (w :: ws) <> []).
      { intros X. apply Hj in X. discriminate. }
      destruct (join [SP] (w :: ws)); [now elim Hne | reflexivity].
  - rewrite IH.
    destruct (words (d :: t')) as [|w ws] eqn:E.
    + exfalso. revert E. now apply words_head_nonws.
    + rewrite !join_cons. reflexivity.
Qed.

Lemma trim_replace_runs b s :
  trim (replace_runs_from is_ws b s) = normalize_spec s.
Proof. unfold trim. rewrite trimStart_replace_runs. apply trimEnd_replace_runs. Qed.

(** Replacing line breaks first does not change what collapsing gives. *)
Lemma replace_runs_linebreaks_len n :
  forall s b, (List.length s <= n)%nat ->
    replace_runs_from is_ws b (replace_linebreaks s) = replace_runs_from is_ws b s.
Proof.
  induction n as [|n IH]; intros s b Hlen.
  - destruct s; [reflexivity | simpl in Hlen; lia].
  - destruct s as [|c t]; [reflexivity|].
    simpl in Hlen. cbn [replace_linebreaks].
    destruct (N.eqb_spec c CR) as [->|Hcr].
    + destruct t as [|d t'].
      * reflexivity.
      * destruct (N.eqb_spec d LF) as [->|Hlf].
        -- change (is_ws CR) with true. cbn [replace_runs_from].
           change (is_ws SP) with true. change (is_ws CR) with true.
           change (is_ws LF) with true. cbv iota.
           simpl in Hlen. rewrite (IH t' true) by lia.
           destruct b; reflexivity.
        -- cbn [replace_runs_from]. change (is_ws SP) with true.
           change (is_ws CR) with true. cbv iota.
           rewrite (IH (d :: t') true) by lia.
           destruct b; reflexivity.
    + destruct (N.eqb_spec c LF) as [->|Hlf].
      * cbn [replace_runs_from]. change (is_ws SP) with true.
        change (is_ws LF) with true. cbv iota.
        rewrite (IH t true) by lia. destruct b; reflexivity.
      * cbn [replace_runs_from]. destruct (is_ws c).
        -- rewrite (IH t true) by lia. reflexivity.
        -- rewrite (IH t false) by lia. reflexivity.
Qed.

Lemma replace_runs_linebreaks b s :
  replace_runs_from is_ws b (replace_linebreaks s) = replace_runs_from is_ws b s.
Proof. now apply (@replace_runs_linebreaks_len (List.length s)). Qed.

(** Both copies compute the normal form of the specification. *)
Lemma esm_cleanContent_spec x : Esm.cleanContent x = normalize_spec x.
Proof.
  unfold Esm.cleanContent. destruct x as [|c t]; [reflexivity|].
  cbn [truthy negb]. unfold replace_runs.
  pose proof (@collapsed_replace_runs false (c :: t)) as Hc.
  rewrite (@replace_runs_absent is_lf false)
    by (apply (collapsed_absent is_lf is_lf_ws Hc)).
  rewrite (@replace_runs_absent is_tab false)
    by (apply (collapsed_absent is_tab is_tab_ws Hc)).
  apply trim_replace_runs.
Qed.

Lemma cjs_cleanContent_spec x : Cjs.cleanContent x = normalize_spec x.
Proof.
  unfold Cjs.cleanContent, replace_runs.
  rewrite replace_runs_linebreaks.
  rewrite replace_each_absent
    by (apply (collapsed_absent is_nbsp is_nbsp_ws), collapsed_replace_runs).
  apply trim_replace_runs.
Qed.

(** The words of a normal form are the words it was built from. *)
Lemma words_app_word w rest :
  word w ->
  match rest with [] => True | d :: _ => is_ws d = true end ->
  words (w ++ rest) = w :: words rest.
Proof.
  intros [Hne Hw] Hrest. induction w as [|c w IH]; [contradiction|].
  assert (Hc : is_ws c = false) by (apply Hw; now left).
  cbn [app words]. rewrite Hc.
  destruct w as [|d w'].
  - cbn [app]. destruct rest as [|e r]; [reflexivity|]. now rewrite Hrest.
  - assert (Hd : is_ws d = false) by (apply Hw; right; now left).
    cbn [app]. rewrite Hd.
    change (d :: w' ++ rest) with ((d :: w') ++ rest).
    rewrite IH; [reflexivity | discriminate |].
    intros x Hx. apply Hw. now right.
Qed.

Lemma words_join l : Forall word l -> words (join [SP] l) = l.
Proof.
  induction l as [|w l IH]; intros H; [reflexivity|].
  inversion H as [|? ? Hw Hl]; subst. rewrite join_cons.
  destruct l as [|w' l'].
  - rewrite (@words_app_word w [] Hw I). reflexivity.
  - rewrite (@words_app_word w (SP :: join [SP] (w' :: l')) Hw eq_refl).
    f_equal. cbn [words]. rewrite is_ws_SP. now apply IH.
Qed.

Lemma normalize_spec_idem x : normalize_spec (normalize_spec x) = normalize_spec x.
Proof.
  unfold normalize_spec.
  now rewrite (words_join (words_word x)).
Qed.

Lemma normalize_spec_collapsed x : collapsed (normalize_spec x).
Proof.
  rewrite <- (@trim_replace_runs false x). unfold trim, trimEnd, trimStart.
  intros c Hin. apply in_rev in Hin.
  assert (Hsub : forall p l y, In y (dropWhile p l) -> In y l).
  { intros p l y. induction l as [|a l IH]; simpl; [tauto|].
    destruct (p a); [intros Hy; right; now apply IH | tauto]. }
  apply Hsub, in_rev, Hsub in Hin.
  now apply (@collapsed_replace_runs false x).
Qed.

Lemma dropWhile_idem p s : dropWhile p (dropWhile p s) = dropWhile p s.
Proof.
  induction s as [|c t IH]; [reflexivity|]. simpl.
  destruct (p c) eqn:E; [exact IH | simpl; now rewrite E].
Qed.

Lemma trimEnd_idem s : trimEnd (trimEnd s) = trimEnd s.
Proof. unfold trimEnd. now rewrite rev_involutive, dropWhile_idem. Qed.

Lemma normalize_spec_trimmed x : trim (normalize_spec x) = normalize_spec x.
Proof.
  unfold trim.
  assert (Hs : trimStart (normalize_spec x) = normalize_spec x).
  { unfold normalize_spec, trimStart.
    pose proof (words_word x) as H.
    destruct (words x) as [|w l]; [reflexivity|].
    inversion H as [|? ? [Hne Hw] _]; subst.
    destruct w as [|c w']; [contradiction|].
    rewrite join_cons. cbn [app dropWhile].
    now rewrite (Hw c (or_introl eq_refl)). }
  rewrite Hs, <- trimEnd_replace_runs. apply trimEnd_idem.
Qed.

(* ------------------------------------------------------------------ *)
(** ** The classifier never throws *)
(* ------------------------------------------------------------------ *)

Lemma isHomepage_total P url : exists b, isHomepage P url = Normal b.
Proof.
  unfold isHomepage. destruct (new_URL_pathname P url) as [path|e].
  - destruct (existsb _ homepagePatterns); [eauto|].
    destruct (str_eqb path [] || str_eqb path (js "/")); [eauto|].
    destruct (existsb _ nonArticlePatterns); eauto.
  - eauto.
Qed.

(* ------------------------------------------------------------------ *)
(** ** Running one invocation of [scrapeContent] *)
(* ------------------------------------------------------------------ *)

(** Unfolds an invocation down to the answers of the site. *)
Ltac unfold_run :=
  cbv [scrapeContentWith scrape_try call emit try_finally try_catch bind ret
       throw set_browser get_browser lift navigate maxAttempts
       navigationTimeout N.to_nat Pos.to_nat Pos.iter_op Init.Nat.add N.ltb
       N.leb N.compare N.add Pos.compare Pos.compare_cont Pos.add Pos.succ
       init fst snd].

(** Asks the site for its next answer, in the order of the calls. *)
Ltac site_case W url :=
  match goal with
  | |- context [launch_ok (W url)] => destruct (launch_ok (W url)) eqn:?
  | |- context [newPage_ok (W url)] => destruct (newPage_ok (W url)) eqn:?
  | |- context [setDefaultNavigationTimeout_ok (W url)] =>
      destruct (setDefaultNavigationTimeout_ok (W url)) eqn:?
  | |- context [setRequestInterception_ok (W url)] =>
      destruct (setRequestInterception_ok (W url)) eqn:?
  | |- context [setUserAgent_ok (W url)] =>
      destruct (setUserAgent_ok (W url)) eqn:?
  | |- context [goto (W url) 1] => destruct (goto (W url) 1) eqn:?
  | |- context [goto (W url) 2] => destruct (goto (W url) 2) eqn:?
  | |- context [goto (W url) 3] => destruct (goto (W url) 3) eqn:?
  | |- context [failed_to_load ?r] => destruct (failed_to_load r) eqn:?
  | |- context [page_content (W url)] => destruct (page_content (W url)) eqn:?
  | |- context [close_ok (W url)] => destruct (close_ok (W url)) eqn:?
  end; cbn [race trace browser].

Ltac flatten_trace := cbn [app]; repeat rewrite <- app_assoc; cbn [app].

(** Splits a conjunction of properties into its parts. *)
Ltac parts := repeat match goal with |- _ /\ _ => split end.

(** An invocation appends its own calls to those made before, and what
    it returns does not depend on them. *)
Lemma scrapeContentWith_run P W ex url s :
  exists b,
    scrapeContentWith P W ex url s =
    (outcome P W ex url,
     {| trace := trace s ++ events P W ex url; browser := b |}).
Proof.
  destruct s as [tr b0]. unfold outcome, events. unfold_run.
  destruct (isHomepage P url) as [[|]|e].
  - cbn. rewrite app_nil_r. eexists; reflexivity.
  - repeat site_case W url; flatten_trace; eexists; reflexivity.
  - cbn. rewrite app_nil_r. eexists; reflexivity.
Qed.

(** A skipped URL costs nothing. *)
Lemma outcome_skip P W ex url :
  isHomepage P url = Normal true ->
  outcome P W ex url = Normal empty_result /\ events P W ex url = [].
Proof. intros H. unfold outcome, events. unfold_run. rewrite H. split; reflexivity. Qed.

(** A content that is not empty was extracted from the page. *)
Lemma outcome_content P W ex url r :
  outcome P W ex url = Normal r ->
  r_content r <> [] ->
  exists m,
    isHomepage P url = Normal false /\
    page_content (W url) = Some m /\
    r = ex (after_removing m removedSelector).
Proof.
  unfold outcome. unfold_run.
  destruct (isHomepage P url) as [[|]|e]; cbn.
  - intros [= <-] H. now elim H.
  - repeat site_case W url; cbn;
      try discriminate;
      try (intros [= <-] H; now elim H).
    all: intros [= <-] _; eexists; repeat split; reflexivity.
  - discriminate.
Qed.

(* ------------------------------------------------------------------ *)
(** ** Running the batch coordinators *)
(* ------------------------------------------------------------------ *)

Lemma esm_loop_run P W rs : forall acc s,
  exists b,
    Esm.scrapeMultipleUrls_loop P W rs acc s =
    (Normal (acc ++ flat_map (Esm.article_of P W) rs),
     {| trace := trace s ++
                 flat_map (fun c => events P W Esm.extract (c_url c) ++ [Sleep 1000]) rs;
        browser := b |}).
Proof.
  induction rs as [|c rs IH]; intros acc s.
  - exists (browser s). cbn. rewrite !app_nil_r. now destruct s.
  - cbn [Esm.scrapeMultipleUrls_loop flat_map].
    unfold bind at 1. unfold try_catch, bind at 1, Esm.scrapeContent.
    destruct (scrapeContentWith_run P W Esm.extract (c_url c) s) as [b1 ->].
    unfold Esm.article_of at 1.
    destruct (outcome P W Esm.extract (c_url c)) as [r|e].
    + destruct (truthy (r_content r)); cbn [ret]; unfold bind, emit; cbn [trace browser];
        match goal with |- context [Esm.scrapeMultipleUrls_loop P W rs ?a ?st] =>
          destruct (IH a st) as [b2 ->] end;
        cbn [trace]; exists b2; repeat rewrite <- app_assoc; cbn [app];
        rewrite ?app_nil_r; reflexivity.
    + cbn [ret]; unfold bind, emit; cbn [trace browser].
      match goal with |- context [Esm.scrapeMultipleUrls_loop P W rs ?a ?st] =>
          destruct (IH a st) as [b2 ->] end.
      cbn [trace]; exists b2; repeat rewrite <- app_assoc; cbn [app];
        rewrite ?app_nil_r; reflexivity.
Qed.

Lemma cjs_loop_run P W rs : forall acc s,
  exists b,
    Cjs.scrapeMultipleUrls_loop P W rs acc s =
    (Normal (acc ++ flat_map (Cjs.article_of P W) rs),
     {| trace := trace s ++
                 flat_map (fun c => events P W (Cjs.extract P) (c_url c)) rs;
        browser := b |}).
Proof.
  induction rs as [|c rs IH]; intros acc s.
  - exists (browser s). cbn. rewrite !app_nil_r. now destruct s.
  - cbn [Cjs.scrapeMultipleUrls_loop flat_map].
    unfold bind at 1. unfold try_catch, bind at 1, lift at 1.
    unfold Cjs.article_of at 1.
    destruct (isHomepage_total P (c_url c)) as [[|] Hh]; rewrite Hh.
    + destruct (outcome_skip P W (Cjs.extract P) (c_url c) Hh) as [-> ->].
      cbn [ret r_content empty_result truthy app].
      destruct (IH acc s) as [b2 ->]. exists b2. reflexivity.
    + unfold bind at 1, Cjs.scrapeContent.
      destruct (scrapeContentWith_run P W (Cjs.extract P) (c_url c) s) as [b1 ->].
      destruct (outcome P W (Cjs.extract P) (c_url c)) as [r|e].
      * destruct (truthy (r_content r)); cbn [ret];
          match goal with |- context [Cjs.scrapeMultipleUrls_loop P W rs ?a ?st] =>
            destruct (IH a st) as [b2 ->] end;
          cbn [trace]; exists b2; repeat rewrite <- app_assoc; cbn [app];
          rewrite ?app_nil_r; reflexivity.
      * cbn [ret].
        match goal with |- context [Cjs.scrapeMultipleUrls_loop P W rs ?a ?st] =>
            destruct (IH a st) as [b2 ->] end.
        cbn [trace]; exists b2; repeat rewrite <- app_assoc; cbn [app];
          rewrite ?app_nil_r; reflexivity.
Qed.

(** The articles of the candidates that succeed are the articles of all
    candidates. *)
Lemma esm_articles_succeed P W rs :
  flat_map (Esm.article_of P W) rs =
  flat_map (Esm.article_of P W) (filter (Esm.succeeds P W) rs).
Proof.
  induction rs as [|c rs IH]; [reflexivity|].
  cbn [flat_map filter]. unfold Esm.succeeds at 1.
  unfold Esm.article_of at 1.
  destruct (outcome P W Esm.extract (c_url c)) as [r|e] eqn:E.
  - destruct (truthy (r_content r)) eqn:T.
    + cbn [flat_map]. unfold Esm.article_of at 2. rewrite E, T. now rewrite IH.
    + exact IH.
  - exact IH.
Qed.

Lemma esm_articles_urls P W rs :
  map Esm.a_url (flat_map (Esm.article_of P W) rs) =
  map c_url (filter (Esm.succeeds P W) rs).
Proof.
  induction rs as [|c rs IH]; [reflexivity|].
  cbn [flat_map filter]. unfold Esm.succeeds at 1.
  unfold Esm.article_of at 1. rewrite map_app.
  destruct (outcome P W Esm.extract (c_url c)) as [r|e].
  - destruct (truthy (r_content r)); cbn; now rewrite IH.
  - exact IH.
Qed.


(* ================================================================== *)
(** * Batch coordinator *)
(* ================================================================== *)



(** One invocation never sleeps for a second: its only pauses are the
    two-second ones between navigation attempts. *)
Lemma events_no_politeness_delay P W ex url : ~ In (Sleep 1000) (events P W ex url).
Proof.
  unfold events. unfold_run.
  destruct (isHomepage P url) as [[|]|e]; cbn; [tauto| |tauto].
  repeat site_case W url; cbn; intuition discriminate.
Qed.

(** At the five sample candidates the CommonJS copy makes no one-second
    pause at all, so none separates two consecutive candidates. *)
Lemma politeness_delay_cjs_counterexample :
  ~ In (Sleep 1000)
       (trace (snd (Cjs.scrapeMultipleUrls Sample.platform Sample.five_world
                                           Sample.five init))).
Proof. vm_compute. intuition discriminate. Qed.

(** C9.  In the ES-module copy every candidate's processing
    is followed by a pause of 1000 ms, so that between the calls made for
    two consecutive candidates there is exactly that pause (one more
    follows the last candidate); no other one-second pause occurs.  The
    CommonJS copy has no delay between candidates: its calls are those of
    the candidates, back to back. *)
Theorem politeness_delay (P : Platform) (W : World) :
  (forall rs,
      trace (snd (Esm.scrapeMultipleUrls P W rs init)) = esm_batch_events P W rs)
  /\ (forall pre a b post,
         esm_batch_events P W (pre ++ a :: b :: post) =
         esm_batch_events P W pre
           ++ events P W Esm.extract (c_url a) ++ [Sleep 1000]
           ++ events P W Esm.extract (c_url b) ++ [Sleep 1000]
           ++ esm_batch_events P W post)
  /\ (forall url, ~ In (Sleep 1000) (events P W Esm.extract url))
  /\ (forall rs,
         trace (snd (Cjs.scrapeMultipleUrls P W rs init)) =
         flat_map (fun c => events P W (Cjs.extract P) (c_url c)) rs)
  /\ (forall rs,
         ~ In (Sleep 1000) (trace (snd (Cjs.scrapeMultipleUrls P W rs init)))).
Proof.
  assert (Hcjs : forall rs,
             trace (snd (Cjs.scrapeMultipleUrls P W rs init)) =
             flat_map (fun c => events P W (Cjs.extract P) (c_url c)) rs).
  { intros rs. unfold Cjs.scrapeMultipleUrls.
    destruct (cjs_loop_run P W rs [] init) as [b ->]. reflexivity. }
  parts.
  - intros rs. unfold Esm.scrapeMultipleUrls.
    destruct (esm_loop_run P W rs [] init) as [b ->]. reflexivity.
  - intros pre a b post. unfold esm_batch_events.
    rewrite flat_map_app. cbn [flat_map].
    now repeat rewrite <- app_assoc.
  - intros url. apply events_no_politeness_delay.
  - exact Hcjs.
  - intros rs. rewrite Hcjs. intros H. apply in_flat_map in H.
    destruct H as (c & _ & H). revert H. apply events_no_politeness_delay.
Qed.

(* ================================================================== *)
(** * Fetch orchestrator *)
(* ================================================================== *)

(** C8.  An invocation of [scrapeContent] (either copy: [extract] is the
    extraction of the copy) that launches a browser calls [browser.close]
    exactly once, and as its last call, on every path: the calls are the
    launch, then calls that are neither a launch nor a close, then the
    close.  When the URL is skipped or the launch fails there is no
    session and no close.  Within a batch the calls of the invocation
    follow those made before it. *)
Theorem session_released_once
        (P : Platform) (W : World) (extract : Cheerio -> ScrapeResult)
        (url : jsstring) :
  (isHomepage P url = Normal false ->
   launch_ok (W url) = true ->
   exists pre,
     events P W extract url = Launch 60000 :: pre ++ [Close]
     /\ ~ In Close pre
     /\ (forall t, ~ In (Launch t) pre))
  /\ (isHomepage P url = Normal true \/ launch_ok (W url) = false ->
      ~ In Close (events P W extract url))
  /\ (forall s,
         trace (snd (scrapeContentWith P W extract url s)) =
         trace s ++ events P W extract url).
Proof.
  parts.
  - intros Hh Hl. unfold events. unfold_run. rewrite Hh, Hl. cbn.
    repeat site_case W url; cbn;
      match goal with
      | |- exists pre, ?l = _ /\ _ => exists (removelast (tl l))
      end; cbn; (split; [reflexivity | split; [|intros t]; intuition discriminate]).
  - intros [Hh|Hl]; unfold events; unfold_run.
    + rewrite Hh. cbn. tauto.
    + destruct (isHomepage P url) as [[|]|e]; cbn; try tauto.
      rewrite Hl. cbn. intuition discriminate.
  - intros s. destruct (scrapeContentWith_run P W extract url s) as [b ->].
    reflexivity.
Qed.

Lemma session_released_once_witness :
  (exists pre,
      events Sample.platform Sample.five_world Esm.extract
             (js "https://news.example/2025/06/19/dead/") =
      Launch 60000 :: pre ++ [Close]
      /\ ~ In Close pre
      /\ (forall t, ~ In (Launch t) pre))
  /\ ~ In Close (events Sample.platform Sample.five_world (Cjs.extract Sample.platform)
                        (js "https://news.example/")).
Proof.
  pose proof (session_released_once Sample.platform Sample.five_world Esm.extract
                (js "https://news.example/2025/06/19/dead/")) as (H & _ & _).
  pose proof (session_released_once Sample.platform Sample.five_world
                (Cjs.extract Sample.platform)
                (js "https://news.example/")) as (_ & H' & _).
  split.
  - exact (H eq_refl eq_refl).
  - exact (H' (or_introl eq_refl)).
Defined.




(** The loop bound of the model is never reached: three rounds are
    enough for the retry loop, whatever the site does, and more fuel
    changes nothing. *)
Lemma navigate_fuel W url s k :
  navigate W (3 + k) url None 0 s = navigate W 3 url None 0 s
  /\ fst (navigate W 3 url None 0 s) <> Throw OutOfFuel.
Proof.
  destruct s as [tr b].
  cbv [navigate call emit try_catch bind ret throw lift maxAttempts
       navigationTimeout N.ltb N.leb N.compare N.add Pos.compare
       Pos.compare_cont Pos.add Pos.succ Init.Nat.add fst].
  destruct (goto (W url) 1) as [r| |]; cbn;
    (destruct (goto (W url) 2) as [r'| |]; cbn);
    (destruct (goto (W url) 3) as [r''| |]; cbn);
    split; (reflexivity || discriminate).
Qed.

(* ================================================================== *)
(** * URL classifier *)
(* ================================================================== *)

Lemma canon_idem i c : canon i (canon i c) = canon i c.
Proof.
  unfold canon. destruct i; cbn [andb]; [|reflexivity].
  destruct ((97 <=? c) && (c <=? 122)) eqn:E; [|now rewrite E].
  apply andb_prop in E. destruct E as [E1 E2].
  apply N.leb_le in E1. apply N.leb_le in E2.
  destruct (97 <=? c - 32) eqn:E3; [|reflexivity].
  apply N.leb_le in E3. lia.
Qed.

(** A pattern sees a character only through its canonical form. *)
Lemma deriv_canon i c r : deriv i (canon i c) r = deriv i c r.
Proof.
  induction r as [| |d|a IHa b IHb|a IHa b IHb|a IHa]; cbn [deriv];
    try reflexivity.
  - now rewrite canon_idem.
  - now rewrite IHa, IHb.
  - now rewrite IHa, IHb.
  - exact IHa.
Qed.

Lemma test_canon p s : test p (map (canon (ignoreCase p)) s) = test p s.
Proof.
  unfold test. generalize (body p) as r.
  induction s as [|c s IH]; intros r; [reflexivity|].
  cbn [map fold_left]. rewrite deriv_canon. apply IH.
Qed.

Lemma slash_opt_ignores_case name a b :
  same_ignoring_case a b -> test (slash_opt name) a = test (slash_opt name) b.
Proof.
  intros H. rewrite <- (test_canon (slash_opt name) a).
  rewrite <- (test_canon (slash_opt name) b).
  cbn [ignoreCase slash_opt]. now rewrite H.
Qed.

Lemma nonArticle_skips P url path :
  URL_pathname P url = Some path ->
  existsb (fun pattern => test pattern path) nonArticlePatterns = true ->
  isHomepage P url = Normal true.
Proof.
  intros Hp H. unfold isHomepage, new_URL_pathname. rewrite Hp, H.
  destruct (existsb _ homepagePatterns); [reflexivity|].
  destruct (str_eqb path [] || str_eqb path (js "/")); reflexivity.
Qed.

(** C5.  [isHomepage] (the same function in both copies) never throws.
    A URL that does not parse is not skippable.  A URL whose path is [/],
    [/index.html] or [/home/] is skippable; so is one whose path is [/]
    followed by a boilerplate name ([about], [privacy], ...), with or
    without a final [/], in any letter case.  A URL whose path is
    [/2025/06/19/article-slug/] is not skippable. *)
Theorem isHomepage_classifies (P : Platform) (url : jsstring) :
  (exists b, isHomepage P url = Normal b)
  /\ (URL_pathname P url = None -> isHomepage P url = Normal false)
  /\ (forall path,
         URL_pathname P url = Some path ->
         In path [js "/"; js "/index.html"; js "/home/"] ->
         isHomepage P url = Normal true)
  /\ (forall path name,
         URL_pathname P url = Some path ->
         In name boilerplate ->
         same_ignoring_case path (js ("/" ++ name))
         \/ same_ignoring_case path (js ("/" ++ name ++ "/")) ->
         isHomepage P url = Normal true)
  /\ (URL_pathname P url = Some (js "/2025/06/19/article-slug/") ->
      isHomepage P url = Normal false).
Proof.
  parts.
  - apply isHomepage_total.
  - intros H. unfold isHomepage, new_URL_pathname. now rewrite H.
  - intros path Hp Hin. unfold isHomepage, new_URL_pathname. rewrite Hp.
    cbn in Hin. destruct Hin as [<-|[<-|[<-|[]]]]; reflexivity.
  - intros path name Hp Hin Hcase. apply (nonArticle_skips P url Hp).
    apply existsb_exists. exists (slash_opt name). split.
    + unfold nonArticlePatterns. apply in_map. exact Hin.
    + destruct Hcase as [H|H]; rewrite (slash_opt_ignores_case name H);
        cbn in Hin;
        repeat (destruct Hin as [<-|Hin]; [reflexivity|]); contradiction.
  - intros Hp. unfold isHomepage, new_URL_pathname. rewrite Hp. reflexivity.
Qed.

Lemma isHomepage_classifies_witness :
  isHomepage Sample.platform (js "not a url") = Normal false
  /\ isHomepage Sample.platform (js "https://news.example") = Normal true
  /\ isHomepage Sample.platform (js "https://news.example/index.html") = Normal true
  /\ isHomepage Sample.platform (js "https://news.example/home/") = Normal true
  /\ isHomepage Sample.platform (js "https://news.example/ABOUT") = Normal true
  /\ isHomepage Sample.platform (js "https://news.example/Privacy/") = Normal true
  /\ isHomepage Sample.platform
                (js "https://news.example/2025/06/19/article-slug/") = Normal false.
Proof.
  parts.
  - destruct (isHomepage_classifies Sample.platform (js "not a url"))
      as (_ & H & _).
    apply H. reflexivity.
  - destruct (isHomepage_classifies Sample.platform (js "https://news.example"))
      as (_ & _ & H & _).
    apply (H (js "/")); [reflexivity | cbn; tauto].
  - destruct (isHomepage_classifies Sample.platform
                (js "https://news.example/index.html")) as (_ & _ & H & _).
    apply (H (js "/index.html")); [reflexivity | cbn; tauto].
  - destruct (isHomepage_classifies Sample.platform
                (js "https://news.example/home/")) as (_ & _ & H & _).
    apply (H (js "/home/")); [reflexivity | cbn; tauto].
  - destruct (isHomepage_classifies Sample.platform
                (js "https://news.example/ABOUT")) as (_ & _ & _ & H & _).
    apply (H (js "/ABOUT") "about"%string);
      [reflexivity | cbn; tauto | left; reflexivity].
  - destruct (isHomepage_classifies Sample.platform
                (js "https://news.example/Privacy/")) as (_ & _ & _ & H & _).
    apply (H (js "/Privacy/") "privacy"%string);
      [reflexivity | cbn; tauto | right; reflexivity].
  - destruct (isHomepage_classifies Sample.platform
                (js "https://news.example/2025/06/19/article-slug/"))
      as (_ & _ & _ & _ & H).
    apply H. reflexivity.
Defined.

(* ================================================================== *)
(** * Text normaliser *)
(* ================================================================== *)

(** C6.  [cleanContent] (both copies) is a function of its argument
    alone; it returns the whitespace-free pieces of the text joined by
    single ASCII spaces, so that every run of whitespace (newlines, tabs
    and no-break spaces included) has become one space and none is left at
    the ends; it is idempotent; and the text a, LF, LF, TAB, b, three
    spaces, c becomes [a b c]. *)
Theorem cleanContent_normalizes :
  (forall x, Esm.cleanContent x = normalize_spec x)
  /\ (forall x, Cjs.cleanContent x = normalize_spec x)
  /\ (forall x, Esm.cleanContent (Esm.cleanContent x) = Esm.cleanContent x)
  /\ (forall x, Cjs.cleanContent (Cjs.cleanContent x) = Cjs.cleanContent x)
  /\ (forall x, collapsed (normalize_spec x))
  /\ (forall x, trim (normalize_spec x) = normalize_spec x)
  /\ (forall x, Forall word (words x))
  /\ Esm.cleanContent [97; LF; LF; TAB; 98; SP; SP; SP; 99] = js "a b c"
  /\ Cjs.cleanContent [97; LF; LF; TAB; 98; SP; SP; SP; 99] = js "a b c"
  /\ Esm.cleanContent [SP; 97; NBSP; CR; LF; 98; TAB] = js "a b"
  /\ Cjs.cleanContent [SP; 97; NBSP; CR; LF; 98; TAB] = js "a b".
Proof.
  parts; try reflexivity.
  - apply esm_cleanContent_spec.
  - apply cjs_cleanContent_spec.
  - intros x. rewrite !esm_cleanContent_spec. apply normalize_spec_idem.
  - intros x. rewrite !cjs_cleanContent_spec. apply normalize_spec_idem.
  - apply normalize_spec_collapsed.
  - apply normalize_spec_trimmed.
  - apply words_word.
Qed.

(* ================================================================== *)
(** * Metadata extractor *)
(* ================================================================== *)

Lemma probe_dates_first doc sources :
  Esm.probe_dates doc sources =
  option_map trim (first_some (esm_source_value doc) sources).
Proof.
  induction sources as [|s rest IH]; [reflexivity|].
  cbn [Esm.probe_dates first_some]. unfold esm_source_value at 1.
  destruct (doc s) as [|e l] eqn:E.
  - cbn. exact IH.
  - replace (0 <? sel_length (e :: l)) with true
      by (unfold sel_length; cbn [List.length]; symmetry; apply N.ltb_lt; lia).
    destruct (Esm.date_value (e :: l)) as [[|c d]|]; [exact IH|reflexivity|exact IH].
Qed.

(** The CommonJS copy finds no date in a document whose date sits in a
    class-based container, which the ES-module copy does find. *)
Lemma extractPublicationDate_cjs_counterexample :
  esm_source_value date_class_only (Sel (Class "date")) = Some (js "2025-06-19")
  /\ Esm.extractPublicationDate date_class_only = Some (js "2025-06-19")
  /\ Cjs.extractPublicationDate Sample.platform date_class_only = None.
Proof. parts; reflexivity. Qed.

Lemma cjs_date_first P doc :
  Cjs.extractPublicationDate P doc =
  match first_some (cjs_source_value doc) cjs_sources with
  | Some v => option_map Cjs.before_T (Date_toISOString P v)
  | None => None
  end.
Proof.
  unfold Cjs.extractPublicationDate, cjs_sources, cjs_source_value, first.
  cbn [first_some fst snd].
  destruct (attr "content" (doc (Sel (AttrEq "meta" "property" "article:published_time"))))
    as [[|c1 d1]|];
    destruct (attr "content" (doc (Sel (AttrEq "meta" "name" "pubdate"))))
      as [[|c2 d2]|];
    destruct (attr "content" (doc (Sel (AttrEq "meta" "name" "publication_date"))))
      as [[|c3 d3]|];
    destruct (attr "content" (doc (Sel (AttrEq "meta" "name" "date"))))
      as [[|c4 d4]|];
    cbn [or_else truthy_opt truthy negb];
    try (destruct (Date_toISOString P _); reflexivity);
    destruct (doc (Sel (HasAttr "time" "datetime"))) as [|e l];
    cbn [firstn sel_length List.length attr];
    try reflexivity;
    (replace (0 <? N.of_nat 1) with true by reflexivity);
    destruct (el_attr "datetime" e) as [[|c5 d5]|]; try reflexivity;
    destruct (Date_toISOString P _); reflexivity.
Qed.

(** C7.  [extractPublicationDate] never throws, in either
    copy.  The ES-module copy probes, in this order, the metas
    [article:published_time], [publish_date], [date], [pubdate],
    [publication_date], the [time] element with a [datetime], and the
    containers [.date], [.published], [.pubdate], [.timestamp]; it returns
    the first value that is not empty, trimmed and otherwise as found, and
    none when no source has one.  The CommonJS copy probes only the metas
    [article:published_time], [pubdate], [publication_date], [date] and
    then the first [time] element with a [datetime]; it returns the part
    before the T of the ISO form of the first value that is not empty, and
    none when that value is not a date or when no source has one.  For a
    document whose [article:published_time] meta holds
    2025-06-19T10:00:00Z the ES-module copy returns that string and the
    CommonJS copy returns 2025-06-19. *)
Theorem extractPublicationDate_probes (P : Platform) (doc : Cheerio) :
  Esm.extractPublicationDate doc =
    option_map trim (first_some (esm_source_value doc) Esm.dateSelectors)
  /\ ((forall source, In source Esm.dateSelectors -> doc source = []) ->
      Esm.extractPublicationDate doc = None)
  /\ (attr "content" (doc published_time) = Some (js "2025-06-19T10:00:00Z") ->
      Esm.extractPublicationDate doc = Some (js "2025-06-19T10:00:00Z"))
  /\ Cjs.extractPublicationDate P doc =
       match first_some (cjs_source_value doc) cjs_sources with
       | Some v => option_map Cjs.before_T (Date_toISOString P v)
       | None => None
       end
  /\ (attr "content" (doc published_time) = Some (js "2025-06-19T10:00:00Z") ->
      Date_toISOString P (js "2025-06-19T10:00:00Z")
        = Some (js "2025-06-19T10:00:00.000Z") ->
      Cjs.extractPublicationDate P doc = Some (js "2025-06-19")).
Proof.
  parts.
  - apply probe_dates_first.
  - intros H. unfold Esm.extractPublicationDate. rewrite probe_dates_first.
    assert (E : forall l, (forall s, In s l -> doc s = []) ->
                          first_some (esm_source_value doc) l = None).
    { induction l as [|s l IH]; intros Hl; [reflexivity|].
      cbn [first_some]. unfold esm_source_value at 1.
      rewrite (Hl s (or_introl eq_refl)). apply IH.
      intros s' Hs'. apply Hl. now right. }
    now rewrite (E _ H).
  - intros H. unfold Esm.extractPublicationDate. rewrite probe_dates_first.
    unfold Esm.dateSelectors. cbn [first_some].
    fold published_time. unfold esm_source_value at 1.
    destruct (doc published_time) as [|e l] eqn:E; [discriminate|].
    unfold Esm.date_value. rewrite H. reflexivity.
  - apply cjs_date_first.
  - intros H Hd. rewrite cjs_date_first.
    unfold cjs_sources. cbn [first_some].
    unfold cjs_source_value at 1. cbn [fst snd]. fold published_time.
    rewrite H. revert Hd.
    generalize (eq_refl (js "2025-06-19T10:00:00Z")).
    generalize (js "2025-06-19T10:00:00Z") at 2 3 4 as v.
    intros v Hv Hd. destruct v as [|c d]; [discriminate Hv|].
    now rewrite Hd.
Qed.

Lemma extractPublicationDate_probes_witness :
  Esm.extractPublicationDate (Sample.document []) = None
  /\ Esm.extractPublicationDate published_doc = Some (js "2025-06-19T10:00:00Z")
  /\ Cjs.extractPublicationDate Sample.platform published_doc
     = Some (js "2025-06-19").
Proof.
  parts.
  - destruct (extractPublicationDate_probes Sample.platform (Sample.document []))
      as (_ & H & _).
    apply H. reflexivity.
  - destruct (extractPublicationDate_probes Sample.platform published_doc)
      as (_ & _ & H & _).
    apply H. reflexivity.
  - destruct (extractPublicationDate_probes Sample.platform published_doc)
      as (_ & _ & _ & _ & H).
    apply H; reflexivity.
Defined.

(* ================================================================== *)
(** * Content extractor *)
(* ================================================================== *)

Lemma simple_selector_eq_dec (a b : simple_selector) : {a = b} + {a <> b}.
Proof. decide equality; apply string_dec. Qed.

Lemma selector_eq_dec (a b : selector) : {a = b} + {a <> b}.
Proof.
  decide equality;
    [apply simple_selector_eq_dec | apply list_eq_dec, simple_selector_eq_dec].
Qed.

Lemma first_some_only {A B} (dec : forall a b : A, {a = b} + {a <> b})
      (f : A -> option B) (l : list A) (x : A) (y : B) :
  In x l ->
  (forall z, In z l -> z <> x -> f z = None) ->
  f x = Some y ->
  first_some f l = Some y.
Proof.
  intros Hin Hothers Hx. induction l as [|z l IH]; [contradiction|].
  cbn [first_some]. destruct (dec z x) as [->|Hne].
  - now rewrite Hx.
  - rewrite (Hothers z (or_introl eq_refl) Hne).
    apply IH.
    + destruct Hin as [->|Hin]; [now elim Hne | exact Hin].
    + intros w Hw. apply Hothers. now right.
Qed.

Lemma first_some_In {A B} (f : A -> option B) l y :
  first_some f l = Some y -> exists x, In x l /\ f x = Some y.
Proof.
  induction l as [|z l IH]; [discriminate|]. cbn [first_some].
  destruct (f z) as [y'|] eqn:E.
  - intros [= <-]. exists z. split; [now left | exact E].
  - intros H. destruct (IH H) as (x & Hx & Hf). exists x. split; [now right | exact Hf].
Qed.

Lemma sel_length_pos (e : Element) l : (0 <? sel_length (e :: l)) = true.
Proof. unfold sel_length. cbn [List.length]. apply N.ltb_lt. lia. Qed.

Lemma esm_try_containers_first doc containers acc :
  Esm.try_containers doc containers acc =
  match first_some (container_text 200 doc) containers with
  | Some t => t
  | None => acc
  end.
Proof.
  induction containers as [|s rest IH]; [reflexivity|].
  cbn [Esm.try_containers first_some]. unfold container_text at 1.
  destruct (doc s) as [|e l]; [exact IH|].
  rewrite sel_length_pos. cbv zeta.
  destruct (200 <? len (trim (text (e :: l)))); [reflexivity | exact IH].
Qed.

Lemma cjs_try_containers_first doc containers : forall acc,
  len acc <= 500 ->
  match first_some (container_text 500 doc) containers with
  | Some t => Cjs.try_containers doc containers acc = t
  | None => len (Cjs.try_containers doc containers acc) <= 500
  end.
Proof.
  induction containers as [|s rest IH]; intros acc Hacc; [exact Hacc|].
  cbn [Cjs.try_containers first_some]. unfold container_text at 1.
  destruct (doc s) as [|e l]; [now apply IH|].
  rewrite sel_length_pos. cbv zeta.
  destruct (500 <? len (trim (text (e :: l)))) eqn:E; [reflexivity|].
  apply IH. now apply N.ltb_ge.
Qed.

Lemma container_text_long bar doc s t :
  container_text bar doc s = Some t -> bar < len t.
Proof.
  unfold container_text. destruct (doc s) as [|e l]; [discriminate|].
  cbv zeta. destruct (bar <? len (trim (text (e :: l)))) eqn:E; [|discriminate].
  intros [= <-]. now apply N.ltb_lt.
Qed.

Lemma truthy_len s : truthy s = negb (len s =? 0).
Proof. destruct s; [reflexivity|]. unfold len. cbn [List.length truthy]. 
  symmetry. apply negb_true_iff, N.eqb_neq. lia. Qed.

Lemma esm_extractText_chain doc :
  Esm.extractText doc =
  match first_some (container_text 200 doc) Esm.contentSelectors with
  | Some t => t
  | None =>
      if len (esm_paragraph_text doc) <? 100 then trim (text (doc (Tag "body")))
      else esm_paragraph_text doc
  end.
Proof.
  unfold Esm.extractText. rewrite esm_try_containers_first.
  destruct (first_some (container_text 200 doc) Esm.contentSelectors) as [t|] eqn:E.
  - apply first_some_In in E. destruct E as (s & _ & E).
    apply container_text_long in E.
    assert (H2 : (len t <? 200) = false) by (apply N.ltb_ge; lia).
    assert (H1 : (len t <? 100) = false) by (apply N.ltb_ge; lia).
    assert (Ht : truthy t = true).
    { rewrite truthy_len. apply negb_true_iff, N.eqb_neq. lia. }
    cbv zeta. rewrite Ht, H2. cbn [negb orb]. now rewrite Ht, H1.
  - cbv zeta. cbn [truthy negb orb]. fold (esm_paragraph_text doc).
    rewrite truthy_len.
    destruct (len (esm_paragraph_text doc) <? 100) eqn:E1.
    + now rewrite orb_true_r.
    + apply N.ltb_ge in E1.
      replace (len (esm_paragraph_text doc) =? 0) with false
        by (symmetry; apply N.eqb_neq; lia).
      reflexivity.
Qed.

(** The sample article page: a single container, [article], of 250
    characters, and 50 characters of paragraphs.  The CommonJS copy does
    not return the text of the container: its bar is 500, and it returns
    the title, headings, paragraphs, list items and remaining container
    text instead, here the 50 characters of the paragraph. *)
Lemma extraction_chain_cjs_counterexample :
  let doc := Sample.document Sample.article_250_p_50 in
  let container := Sel (Tag "article") in
  map (fun s => List.length (doc s)) Cjs.articleSelectors
    = [1; 0; 0; 0; 0; 0; 0; 0; 0; 0; 0; 0; 0; 0; 0]%nat
  /\ len (trim (text (doc container))) = 250
  /\ len (join (js " ") (map_get (fun el => trim (el_text el)) (doc (Tag "p")))) = 50
  /\ Cjs.extractText doc (page_title doc) <> trim (text (doc container))
  /\ r_content (Cjs.extract Sample.platform doc) = Sample.chars 50 98
  /\ Esm.extractText doc = trim (text (doc container)).
Proof.
  cbv zeta. parts; try (vm_compute; reflexivity).
  vm_compute. discriminate.
Qed.

(** C4.  The ES-module copy tries its containers in the
    listed order and takes the trimmed text of the first one that exists
    and is longer than 200 characters; only when there is none it takes
    the trimmed, space-joined paragraph text, and only when that is
    shorter than 100 characters the trimmed text of the body.  So for a
    document whose only container holds 250 characters it returns the
    text of the container, whatever the paragraphs hold.  The CommonJS
    copy takes the first container longer than 500 characters, preceded
    by the title and a space, and otherwise the comprehensive text (title,
    headings, paragraphs, list items, other containers), and falls back
    to the body when that text is empty or shorter than 50 characters once
    trimmed. *)
Theorem extraction_chain (doc : Cheerio) (title : jsstring) :
  Esm.extractText doc =
    match first_some (container_text 200 doc) Esm.contentSelectors with
    | Some t => t
    | None =>
        if len (esm_paragraph_text doc) <? 100 then trim (text (doc (Tag "body")))
        else esm_paragraph_text doc
    end
  /\ (forall container,
         In container Esm.contentSelectors ->
         (forall other, In other Esm.contentSelectors -> other <> container ->
                        doc other = []) ->
         len (trim (text (doc container))) = 250 ->
         Esm.extractText doc = trim (text (doc container)))
  /\ Cjs.assembleText doc title =
       match first_some (container_text 500 doc) Cjs.articleSelectors with
       | Some t => title ++ js " " ++ t
       | None => Cjs.comprehensiveText doc title
       end
  /\ Cjs.extractText doc title =
       if negb (truthy (Cjs.assembleText doc title))
          || (len (trim (Cjs.assembleText doc title)) <? 50)
       then trim (text (doc (Tag "body")))
       else Cjs.assembleText doc title.
Proof.
  parts.
  - apply esm_extractText_chain.
  - intros container Hin Hothers Hlen. rewrite esm_extractText_chain.
    rewrite (@first_some_only _ _ selector_eq_dec (container_text 200 doc)
               Esm.contentSelectors container (trim (text (doc container)))).
    + reflexivity.
    + exact Hin.
    + intros z Hz Hne. unfold container_text. now rewrite (Hothers z Hz Hne).
    + unfold container_text. destruct (doc container) as [|e l] eqn:E.
      * cbn in Hlen. discriminate.
      * cbv zeta. now rewrite Hlen.
  - unfold Cjs.assembleText. cbv zeta.
    pose proof (cjs_try_containers_first doc Cjs.articleSelectors []) as H.
    destruct (first_some (container_text 500 doc) Cjs.articleSelectors) as [t|] eqn:E.
    + rewrite H by (cbn; lia).
      apply first_some_In in E. destruct E as (s & _ & E).
      apply container_text_long in E.
      now replace (500 <? len t) with true by (symmetry; apply N.ltb_lt; lia).
    + replace (500 <? len (Cjs.try_containers doc Cjs.articleSelectors []))
        with false; [reflexivity|].
      symmetry. apply N.ltb_ge. apply H. cbn. lia.
  - reflexivity.
Qed.

Lemma extraction_chain_witness :
  let doc := Sample.document Sample.article_250_p_50 in
  Esm.extractText doc = trim (text (doc (Sel (Tag "article")))).
Proof.
  cbv zeta.
  destruct (extraction_chain (Sample.document Sample.article_250_p_50) [])
    as (_ & H & _).
  apply (H (Sel (Tag "article"))).
  - cbn. tauto.
  - intros other Hin Hne. cbn in Hin.
    repeat (destruct Hin as [<-|Hin]; [try reflexivity; now elim Hne|]).
    contradiction.
  - vm_compute. reflexivity.
Defined.

(* ================================================================== *)
(** * What the batch emits *)
(* ================================================================== *)

Lemma esm_extract_content doc :
  r_content (Esm.extract doc) =
  if len (Esm.cleanContent (Esm.extractText doc)) <? 100 then []
  else Esm.cleanContent (Esm.extractText doc).
Proof.
  unfold Esm.extract. cbv zeta. rewrite truthy_len.
  destruct (len (Esm.cleanContent (Esm.extractText doc)) <? 100) eqn:E.
  - now rewrite orb_true_r.
  - apply N.ltb_ge in E.
    replace (len (Esm.cleanContent (Esm.extractText doc)) =? 0) with false
      by (symmetry; apply N.eqb_neq; lia).
    reflexivity.
Qed.

Lemma truthy_nonempty s : truthy s = true <-> s <> [].
Proof. destruct s; cbn; split; congruence. Qed.

(** An article of the ES-module copy carries a normalised text of at
    least 100 characters, extracted from the page of its URL. *)
Lemma esm_article_content P W c a :
  In a (Esm.article_of P W c) ->
  Esm.a_url a = c_url c
  /\ exists m,
      page_content (W (c_url c)) = Some m
      /\ Esm.a_content a =
         Esm.cleanContent (Esm.extractText (after_removing m removedSelector))
      /\ 100 <= len (Esm.a_content a).
Proof.
  unfold Esm.article_of.
  destruct (outcome P W Esm.extract (c_url c)) as [r|e] eqn:E; [|contradiction].
  destruct (truthy (r_content r)) eqn:T; [|contradiction].
  intros [<-|[]]. cbn [Esm.a_url Esm.a_content]. split; [reflexivity|].
  apply truthy_nonempty in T.
  destruct (outcome_content P W Esm.extract (c_url c) E T) as (m & _ & Hm & ->).
  exists m. split; [exact Hm|].
  rewrite esm_extract_content in T |- *.
  destruct (len (Esm.cleanContent (Esm.extractText (after_removing m removedSelector)))
            <? 100) eqn:F; [now elim T|].
  split; [reflexivity | now apply N.ltb_ge].
Qed.

Lemma cjs_article_content P W c a :
  In a (Cjs.article_of P W c) ->
  Cjs.a_result a = c
  /\ Cjs.a_content a <> []
  /\ exists m,
      page_content (W (c_url c)) = Some m
      /\ Cjs.a_content a =
         r_content (Cjs.extract P (after_removing m removedSelector)).
Proof.
  unfold Cjs.article_of.
  destruct (outcome P W (Cjs.extract P) (c_url c)) as [r|e] eqn:E; [|contradiction].
  destruct (truthy (r_content r)) eqn:T; [|contradiction].
  intros [<-|[]]. cbn [Cjs.a_result Cjs.a_content].
  apply truthy_nonempty in T. split; [reflexivity|]. split; [exact T|].
  destruct (outcome_content P W (Cjs.extract P) (c_url c) E T) as (m & _ & Hm & ->).
  exists m. split; [exact Hm | reflexivity].
Qed.

(** A page with two characters of text: the CommonJS copy emits them. *)
Lemma content_floor_cjs_counterexample :
  let W := fun _ : jsstring => Sample.serving (Sample.markup Sample.tiny_page) in
  let rs := [Sample.candidate "https://news.example/2025/06/19/first/"] in
  exists a,
    fst (Cjs.scrapeMultipleUrls Sample.platform W rs init) = Normal [a]
    /\ Cjs.a_content a = js "hi"
    /\ len (Cjs.a_content a) < 100.
Proof. cbv zeta. eexists. parts; vm_compute; reflexivity. Qed.

(** C1.  Every article returned by [scrapeMultipleUrls] of
    the ES-module copy carries the normalised text extracted from the
    page of its URL: its content is [cleanContent] of the text the
    extractor takes from the page served at the article's URL, once the
    boilerplate elements are removed.  That text has at least 100
    characters (so it is not empty) and is in normal form; a URL whose
    normalised text is shorter than 100 characters has no article in the
    result.  Every article returned by the CommonJS copy carries the
    normalised text extracted from the page of its URL as well, and that
    content is not empty; that copy has no floor. *)
Theorem emitted_content_floor
        (P : Platform) (W : World) (searchResults : list CandidateUrl) :
  (exists articles s',
      Esm.scrapeMultipleUrls P W searchResults init = (Normal articles, s')
      /\ (forall a, In a articles ->
            100 <= len (Esm.a_content a)
            /\ Esm.a_content a <> []
            /\ normalize_spec (Esm.a_content a) = Esm.a_content a
            /\ exists m,
                page_content (W (Esm.a_url a)) = Some m
                /\ Esm.a_content a =
                   Esm.cleanContent
                     (Esm.extractText (after_removing m removedSelector)))
      /\ (forall url m,
            page_content (W url) = Some m ->
            len (Esm.cleanContent
                   (Esm.extractText (after_removing m removedSelector))) < 100 ->
            forall a, In a articles -> Esm.a_url a <> url))
  /\ (exists articles s',
         Cjs.scrapeMultipleUrls P W searchResults init = (Normal articles, s')
         /\ (forall a, In a articles ->
               Cjs.a_content a <> []
               /\ normalize_spec (Cjs.a_content a) = Cjs.a_content a
               /\ exists m,
                   page_content (W (c_url (Cjs.a_result a))) = Some m
                   /\ Cjs.a_content a =
                      let doc := after_removing m removedSelector in
                      Cjs.cleanContent (Cjs.extractText doc (page_title doc)))).
Proof.
  split.
  - unfold Esm.scrapeMultipleUrls.
    destruct (esm_loop_run P W searchResults [] init) as [b ->].
    do 2 eexists. split; [reflexivity|]. cbn [app]. split.
    + intros a Ha. apply in_flat_map in Ha. destruct Ha as (c & _ & Ha).
      destruct (esm_article_content P W c a Ha) as (Hu & m & Hm & Hc & Hlen).
      split; [exact Hlen|]. split; [|split].
      * intros E. rewrite E in Hlen. cbn in Hlen. lia.
      * rewrite Hc, esm_cleanContent_spec. apply normalize_spec_idem.
      * exists m. rewrite Hu. split; [exact Hm | exact Hc].
    + intros url m Hm Hshort a Ha Hurl.
      apply in_flat_map in Ha. destruct Ha as (c & _ & Ha).
      destruct (esm_article_content P W c a Ha) as (Hu & m' & Hm' & Hc & Hlen).
      rewrite <- Hu, Hurl, Hm in Hm'. injection Hm' as <-.
      rewrite Hc in Hlen. lia.
  - unfold Cjs.scrapeMultipleUrls.
    destruct (cjs_loop_run P W searchResults [] init) as [b ->].
    do 2 eexists. split; [reflexivity|]. cbn [app].
    intros a Ha. apply in_flat_map in Ha. destruct Ha as (c & _ & Ha).
    destruct (cjs_article_content P W c a Ha) as (Hr & Hne & m & Hm & Hc).
    split; [exact Hne|]. split.
    + rewrite Hc. unfold Cjs.extract. cbn [r_content].
      rewrite cjs_cleanContent_spec. apply normalize_spec_idem.
    + exists m. rewrite Hr. split; [exact Hm|]. rewrite Hc. reflexivity.
Qed.

Lemma emitted_content_floor_witness :
  exists articles s',
    Esm.scrapeMultipleUrls Sample.platform short_world Sample.five init
    = (Normal articles, s')
    /\ (forall a, In a articles -> 100 <= len (Esm.a_content a))
    /\ (forall a, In a articles ->
          exists m,
            page_content (short_world (Esm.a_url a)) = Some m
            /\ Esm.a_content a =
               Esm.cleanContent
                 (Esm.extractText (after_removing m removedSelector)))
    /\ (forall a, In a articles ->
                  Esm.a_url a <> js "https://news.example/2025/06/19/dead/").
Proof.
  destruct (emitted_content_floor Sample.platform short_world Sample.five)
    as ((articles & s' & Hrun & Hlen & Hfloor) & _).
  exists articles, s'. split; [exact Hrun|]. split; [|split].
  - intros a Ha. exact (proj1 (Hlen a Ha)).
  - intros a Ha. exact (proj2 (proj2 (proj2 (Hlen a Ha)))).
  - apply (Hfloor (js "https://news.example/2025/06/19/dead/")
                  (Sample.markup Sample.tiny_page)).
    + reflexivity.
    + vm_compute. reflexivity.
Defined.

(* ================================================================== *)
(** * The title in the content of the CommonJS copy *)
(* ================================================================== *)

Lemma words_app_space a b : words (a ++ SP :: b) = words a ++ words b.
Proof.
  induction a as [|c a IH].
  - cbn [app words]. now rewrite is_ws_SP.
  - cbn [app]. cbn [words]. destruct (is_ws c) eqn:Hc; [exact IH|].
    destruct a as [|d a'].
    + cbn [app]. rewrite is_ws_SP. cbn [words]. now rewrite is_ws_SP.
    + cbn [app] in *. destruct (is_ws d) eqn:Hd.
      * rewrite IH. reflexivity.
      * rewrite IH.
        destruct (words (d :: a')) as [|w ws] eqn:E.
        -- exfalso. revert E. now apply words_head_nonws.
        -- reflexivity.
Qed.

Lemma join_app l1 l2 :
  l1 <> [] ->
  join [SP] (l1 ++ l2) =
  join [SP] l1 ++ match l2 with [] => [] | _ => SP :: join [SP] l2 end.
Proof.
  induction l1 as [|w l1 IH]; intros Hne; [now elim Hne|].
  cbn [app]. rewrite join_cons.
  destruct l1 as [|w' l1'].
  - reflexivity.
  - assert (IH' := IH ltac:(discriminate)).
    cbn [app] in *. rewrite IH', (join_cons w (w' :: l1')).
    now rewrite <- app_assoc.
Qed.

(** The normal form of a text that starts with [a] and a space starts
    with the normal form of [a]. *)
Lemma normalize_spec_prefix a b :
  exists rest, normalize_spec (a ++ SP :: b) = normalize_spec a ++ rest.
Proof.
  unfold normalize_spec. rewrite words_app_space.
  destruct (words a) as [|w l] eqn:E.
  - cbn [app join]. eauto.
  - rewrite join_app by discriminate. eauto.
Qed.

Lemma cjs_assembleText_title doc title :
  exists rest, Cjs.assembleText doc title = title ++ SP :: rest.
Proof.
  unfold Cjs.assembleText, Cjs.comprehensiveText. cbv zeta.
  destruct (500 <? len (Cjs.try_containers doc Cjs.articleSelectors []));
    eexists; reflexivity.
Qed.

(** The content emitted for that page starts with A, one space, B: not
    with the text of the title. *)
Lemma title_prepended_counterexample :
  let W := fun _ : jsstring => Sample.serving (Sample.markup spaced_title_page) in
  let doc := Sample.document spaced_title_page in
  let title := page_title doc in
  title = [65; SP; SP; 66]
  /\ Cjs.falls_back (Cjs.assembleText doc title) = false
  /\ exists r,
      outcome Sample.platform W (Cjs.extract Sample.platform)
              (js "https://news.example/2025/06/19/first/") = Normal r
      /\ firstn 4 (r_content r) = [65; SP; 66; SP]
      /\ firstn (List.length title) (r_content r) <> title.
Proof.
  cbv zeta. parts; try (vm_compute; reflexivity).
  eexists. parts; try (vm_compute; reflexivity).
  vm_compute. discriminate.
Qed.

(** C10.  In the CommonJS copy the text assembled from the
    container or from the comprehensive extraction is the title of the
    page, a space, and the rest.  When that text is kept (no fall back to
    the body), the content returned is its normal form, which begins with
    the normal form of the title; it begins with the title itself when
    the title is already in normal form.  The title is the text of the
    [title] element when that is not empty.  A content that
    [scrapeContent] returns and that is not empty is the content so
    extracted from the page of the URL. *)
Theorem title_prepended (P : Platform) (W : World) (doc : Cheerio) :
  let title := page_title doc in
  (text (doc (Tag "title")) <> [] -> title = text (doc (Tag "title")))
  /\ (exists rest, Cjs.assembleText doc title = title ++ js " " ++ rest)
  /\ (Cjs.falls_back (Cjs.assembleText doc title) = false ->
      r_content (Cjs.extract P doc) = normalize_spec (Cjs.assembleText doc title)
      /\ (exists rest,
             r_content (Cjs.extract P doc) = normalize_spec title ++ rest)
      /\ (normalize_spec title = title ->
          exists rest, r_content (Cjs.extract P doc) = title ++ rest))
  /\ (forall url r,
         outcome P W (Cjs.extract P) url = Normal r ->
         r_content r <> [] ->
         exists m,
           page_content (W url) = Some m
           /\ r = Cjs.extract P (after_removing m removedSelector)).
Proof.
  cbv zeta. parts.
  - intros Ht. unfold page_title.
    destruct (text (doc (Tag "title"))); [now elim Ht | reflexivity].
  - apply cjs_assembleText_title.
  - intros Hkeep.
    assert (Hc : r_content (Cjs.extract P doc) =
                 normalize_spec (Cjs.assembleText doc (page_title doc))).
    { unfold Cjs.extract. cbv zeta. cbn [r_content].
      unfold Cjs.extractText. cbv zeta. rewrite Hkeep.
      apply cjs_cleanContent_spec. }
    assert (Hp : exists rest,
               r_content (Cjs.extract P doc) =
               normalize_spec (page_title doc) ++ rest).
    { rewrite Hc.
      destruct (cjs_assembleText_title doc (page_title doc)) as [rest ->].
      apply normalize_spec_prefix. }
    parts; [exact Hc | exact Hp |].
    intros Hn. now rewrite Hn in Hp.
  - intros url r Hr Hne.
    destruct (outcome_content P W (Cjs.extract P) url Hr Hne) as (m & _ & Hm & ->).
    eauto.
Qed.

Lemma title_prepended_witness :
  let doc := Sample.document spaced_title_page in
  exists rest,
    r_content (Cjs.extract Sample.platform doc) = js "A B" ++ rest.
Proof.
  cbv zeta.
  destruct (title_prepended Sample.platform (fun _ => Sample.hanging)
              (Sample.document spaced_title_page)) as (_ & _ & H & _).
  destruct (H eq_refl) as (_ & Hp & _).
  exact Hp.
Defined.

(* ================================================================== *)
(** * Beyond the claims *)
(* ================================================================== *)

Ltac find_in := repeat match goal with |- _ \/ _ => (left; reflexivity) || right end.

Lemma in_products t A B :
  In t (products A B) <-> exists x y, In x A /\ In y B /\ t = x ++ y.
Proof.
  unfold products. rewrite in_flat_map. split.
  - intros (x & Hx & Ht). apply in_map_iff in Ht. destruct Ht as (y & <- & Hy). eauto.
  - intros (x & y & Hx & Hy & ->). exists x. split; [exact Hx|]. now apply in_map.
Qed.

Lemma nullable_language i r : nullable r = true <-> In [] (language i r).
Proof.
  induction r as [| |d|a IHa b IHb|a IHa b IHb|a IHa]; cbn [nullable language].
  - split; [discriminate | intros []].
  - split; [now left | reflexivity].
  - split; [discriminate | intros [H|[]]; discriminate].
  - rewrite andb_true_iff, IHa, IHb, in_products. split.
    + intros [Ha Hb]. exists [], []. auto.
    + intros (x & y & Hx & Hy & E). symmetry in E. apply app_eq_nil in E.
      destruct E as [-> ->]. auto.
  - rewrite orb_true_iff, IHa, IHb, in_app_iff. reflexivity.
  - split; [now left | reflexivity].
Qed.

Lemma deriv_language i c r : forall t,
  In t (language i (deriv i c r)) <-> In (canon i c :: t) (language i r).
Proof.
  induction r as [| |d|a IHa b IHb|a IHa b IHb|a IHa]; intros t;
    cbn [deriv language].
  - reflexivity.
  - split; [intros [] | intros [H|[]]; discriminate].
  - destruct (N.eqb_spec (canon i c) (canon i d)) as [E|E]; cbn [language].
    + split.
      * intros [<-|[]]. left. now rewrite E.
      * intros [H|[]]. injection H as _ <-. now left.
    + split; [intros [] | intros [H|[]]]. injection H as H _. now elim E.
  - assert (Hseq : In t (products (language i (deriv i c a)) (language i b)) <->
                   exists x y, In (canon i c :: x) (language i a) /\
                               In y (language i b) /\ t = x ++ y).
    { rewrite in_products. split; intros (x & y & Hx & Hy & E);
        exists x, y; (split; [now apply IHa | auto]). }
    rewrite in_products.
    destruct (nullable a) eqn:Na; cbn [language].
    + rewrite in_app_iff, Hseq, IHb. split.
      * intros [(x & y & Hx & Hy & ->)|Hb].
        -- exists (canon i c :: x), y. auto.
        -- exists [], (canon i c :: t). split; [now apply nullable_language|auto].
      * intros (x & y & Hx & Hy & E). destruct x as [|x0 x].
        -- right. cbn in E. now rewrite E.
        -- left. injection E as -> ->. eauto.
    + rewrite Hseq. split.
      * intros (x & y & Hx & Hy & ->). exists (canon i c :: x), y. auto.
      * intros (x & y & Hx & Hy & E). destruct x as [|x0 x].
        -- apply nullable_language in Hx. congruence.
        -- injection E as -> ->. eauto.
  - rewrite !in_app_iff, IHa, IHb. reflexivity.
  - rewrite IHa. split; [now right | intros [H|H]; [discriminate | exact H]].
Qed.

Lemma test_language p s :
  test p s = true <->
  In (map (canon (ignoreCase p)) s) (language (ignoreCase p) (body p)).
Proof.
  unfold test. generalize (body p) as r.
  induction s as [|c s IH]; intros r; cbn [fold_left map].
  - apply nullable_language.
  - rewrite IH. apply deriv_language.
Qed.


Lemma str_eqb_eq a b : str_eqb a b = true <-> a = b.
Proof.
  revert b. induction a as [|x a IH]; intros [|y b]; cbn [str_eqb];
    try (split; [discriminate | discriminate]); [tauto|].
  rewrite andb_true_iff, N.eqb_eq, IH. split.
  - intros [-> ->]. reflexivity.
  - intros [= -> ->]. auto.
Qed.

Lemma existsb_test_language path l :
  Forall (fun p => ignoreCase p = true) l ->
  (existsb (fun p => test p path) l = true <->
   In (map (canon true) path) (flat_map (fun p => language true (body p)) l)).
Proof.
  intros Hl. rewrite existsb_exists, in_flat_map. split.
  - intros (p & Hp & Ht). exists p. split; [exact Hp|].
    apply test_language in Ht.
    rewrite Forall_forall in Hl. now rewrite (Hl p Hp) in Ht.
  - intros (p & Hp & Ht). exists p. split; [exact Hp|].
    apply test_language. rewrite Forall_forall in Hl. now rewrite (Hl p Hp).
Qed.

Lemma canon_slash path : map (canon true) path = js "/" <-> path = js "/".
Proof.
  split; [|intros ->; reflexivity].
  destruct path as [|c [|d t]]; try discriminate.
  cbn. intros [= H]. f_equal. revert H. unfold canon. cbn [andb].
  destruct ((97 <=? c) && (c <=? 122)) eqn:E; [|auto].
  apply andb_prop in E. destruct E as [E1 _]. apply N.leb_le in E1. lia.
Qed.

Lemma same_ignoring_case_length a b :
  same_ignoring_case a b -> List.length a = List.length b.
Proof.
  unfold same_ignoring_case. intros H.
  apply (f_equal (@List.length _)) in H. now rewrite !length_map in H.
Qed.

(** X1.  [isHomepage] (the same function in both copies) answers true
    exactly for the URLs that parse and whose path is empty or is, ASCII
    case ignored, one of the 43 paths of [skippable_paths] (the root,
    the index, home, default and welcome pages with their four
    extensions, and the thirteen named pages with or without a final
    slash).  Nothing else is skipped: a URL whose path has more than 13
    code units is never skipped. *)
Theorem isHomepage_exact (P : Platform) (url : jsstring) :
  (isHomepage P url = Normal true <->
   exists path,
     URL_pathname P url = Some path
     /\ (path = [] \/
         exists w, In w skippable_paths /\ same_ignoring_case path w))
  /\ (forall path,
         URL_pathname P url = Some path ->
         13 < len path ->
         isHomepage P url = Normal false).
Proof.
  assert (Hchar : forall path,
             (existsb (fun p => test p path) homepagePatterns
              || (str_eqb path [] || str_eqb path (js "/"))
              || existsb (fun p => test p path) nonArticlePatterns = true)
             <-> (path = [] \/
                  exists w, In w skippable_paths /\ same_ignoring_case path w)).
  { intros path.
    assert (Hi : Forall (fun p => ignoreCase p = true)
                        (tl homepagePatterns ++ nonArticlePatterns)).
    { repeat constructor. }
    assert (Hin : (exists w, In w skippable_paths /\ same_ignoring_case path w) <->
                  (path = js "/" \/
                   existsb (fun p => test p path)
                           (tl homepagePatterns ++ nonArticlePatterns) = true)).
    { rewrite (existsb_test_language path Hi).
      change (flat_map (fun p => language true (body p))
                       (tl homepagePatterns ++ nonArticlePatterns))
        with (map (map (canon true)) (tl skippable_paths)).
      rewrite in_map_iff. unfold same_ignoring_case. split.
      - intros (w & [<-|Hw] & E).
        + left. now apply canon_slash.
        + right. exists w. split; [now symmetry | exact Hw].
      - intros [->|(w & E & Hw)].
        + exists (js "/"). split; [now left | reflexivity].
        + exists w. split; [now right | now symmetry]. }
    rewrite Hin. rewrite existsb_app.
    change homepagePatterns with (hd (slash_opt "") homepagePatterns :: tl homepagePatterns).
    cbn [existsb hd].
    assert (H0 : test {| body := lit "/"; ignoreCase := false |} path = true <->
                 path = js "/").
    { rewrite test_language. cbn [ignoreCase body].
      change (language false (lit "/")) with [js "/"].
      replace (map (canon false) path) with path
        by (symmetry; unfold canon; cbn [andb]; apply map_id).
      split; [intros [H|[]]; now symmetry | intros ->; now left]. }
    rewrite !orb_true_iff, H0, !str_eqb_eq. tauto. }
  assert (Hpath : forall path,
             URL_pathname P url = Some path ->
             isHomepage P url =
             Normal (existsb (fun p => test p path) homepagePatterns
                     || (str_eqb path [] || str_eqb path (js "/"))
                     || existsb (fun p => test p path) nonArticlePatterns)).
  { intros path Hp. unfold isHomepage, new_URL_pathname. rewrite Hp.
    destruct (existsb (fun p => test p path) homepagePatterns); [reflexivity|].
    destruct (str_eqb path [] || str_eqb path (js "/")); [reflexivity|].
    now destruct (existsb (fun p => test p path) nonArticlePatterns). }
  split; [split|].
  - intros H. destruct (URL_pathname P url) as [path|] eqn:Hp.
    + exists path. split; [reflexivity|]. apply Hchar.
      rewrite (Hpath path eq_refl) in H. now injection H.
    + unfold isHomepage, new_URL_pathname in H. rewrite Hp in H. discriminate.
  - intros (path & Hp & Hc). rewrite (Hpath path Hp).
    apply Hchar in Hc. now rewrite Hc.
  - intros path Hp Hlen. rewrite (Hpath path Hp).
    match goal with |- Normal ?b = _ => destruct b eqn:E end; [|reflexivity].
    exfalso. apply Hchar in E. destruct E as [->|(w & Hw & Hs)].
    + cbn in Hlen. lia.
    + apply same_ignoring_case_length in Hs. unfold len in Hlen. rewrite Hs in Hlen.
      assert (Hall : Forall (fun w => (List.length w <= 13)%nat) skippable_paths).
      { unfold skippable_paths. repeat constructor; cbn; lia. }
      rewrite Forall_forall in Hall. specialize (Hall w Hw). lia.
Qed.

Lemma isHomepage_exact_witness :
  isHomepage Sample.platform (js "https://news.example/Default.PHP") = Normal true
  /\ isHomepage Sample.platform
                (js "https://news.example/2025/06/19/article-slug/") = Normal false.
Proof.
  split.
  - destruct (isHomepage_exact Sample.platform (js "https://news.example/Default.PHP"))
      as ((_ & H) & _).
    apply H. exists (js "/Default.PHP"). split; [reflexivity|]. right.
    exists (js "/default.php"). split; [cbn; find_in | reflexivity].
  - destruct (isHomepage_exact Sample.platform
                (js "https://news.example/2025/06/19/article-slug/")) as (_ & H).
    apply (H (js "/2025/06/19/article-slug/")); reflexivity.
Defined.


Lemma ink_replace_runs b s : ink (replace_runs_from is_ws b s) = ink s.
Proof.
  revert b. induction s as [|c t IH]; intros b; [reflexivity|].
  cbn [replace_runs_from]. unfold ink in *. cbn [filter].
  destruct (is_ws c) eqn:Hc; cbn [negb].
  - destruct b; [apply IH|]. cbn [filter]. rewrite is_ws_SP. cbn [negb]. apply IH.
  - cbn [filter]. rewrite Hc. cbn [negb]. now rewrite IH.
Qed.

Lemma ink_dropWhile s : ink (dropWhile is_ws s) = ink s.
Proof.
  induction s as [|c t IH]; [reflexivity|]. cbn [dropWhile].
  destruct (is_ws c) eqn:Hc; [|reflexivity].
  rewrite IH. unfold ink. cbn [filter]. now rewrite Hc.
Qed.

Lemma ink_rev s : ink (rev s) = rev (ink s).
Proof.
  unfold ink. induction s as [|c t IH]; [reflexivity|].
  cbn [rev filter]. rewrite filter_app, IH. cbn [filter].
  destruct (negb (is_ws c)); cbn [rev]; [reflexivity | now rewrite app_nil_r].
Qed.

Lemma ink_trim s : ink (trim s) = ink s.
Proof.
  unfold trim, trimEnd, trimStart.
  now rewrite ink_rev, ink_dropWhile, ink_rev, rev_involutive, ink_dropWhile.
Qed.

Lemma length_replace_runs b s :
  (List.length (replace_runs_from is_ws b s) <= List.length s)%nat.
Proof.
  revert b. induction s as [|c t IH]; intros b; [apply le_n|].
  cbn [replace_runs_from]. destruct (is_ws c).
  - destruct b; cbn [List.length]; [specialize (IH true); lia | specialize (IH true); lia].
  - cbn [List.length]. specialize (IH false). lia.
Qed.

Lemma length_dropWhile p s : (List.length (dropWhile p s) <= List.length s)%nat.
Proof.
  induction s as [|c t IH]; [apply le_n|]. cbn [dropWhile].
  destruct (p c); cbn [List.length]; lia.
Qed.

Lemma length_trim s : (List.length (trim s) <= List.length s)%nat.
Proof.
  unfold trim, trimEnd, trimStart. rewrite length_rev.
  etransitivity; [apply length_dropWhile|]. rewrite length_rev.
  apply length_dropWhile.
Qed.

Lemma ink_nil_words s : ink s = [] -> words s = [].
Proof.
  induction s as [|c t IH]; [reflexivity|].
  unfold ink in *. cbn [filter words].
  destruct (is_ws c); cbn [negb]; [exact IH | discriminate].
Qed.

(** X2.  [cleanContent] changes white space only: in both copies the
    code units of the result that are not white space are those of the
    argument, in the same order.  The result is never longer than the
    argument, it is empty exactly when the argument holds nothing but
    white space, and the two copies compute the same function. *)
Theorem cleanContent_keeps_ink (x : jsstring) :
  ink (Esm.cleanContent x) = ink x
  /\ ink (Cjs.cleanContent x) = ink x
  /\ (List.length (Esm.cleanContent x) <= List.length x)%nat
  /\ (Esm.cleanContent x = [] <-> ink x = [])
  /\ Esm.cleanContent x = Cjs.cleanContent x.
Proof.
  rewrite esm_cleanContent_spec, cjs_cleanContent_spec.
  rewrite <- (@trim_replace_runs false x).
  assert (Hink : ink (trim (replace_runs_from is_ws false x)) = ink x)
    by now rewrite ink_trim, ink_replace_runs.
  parts; try exact Hink; try reflexivity.
  - etransitivity; [apply length_trim | apply length_replace_runs].
  - split.
    + intros E. now rewrite E in Hink.
    + intros E. rewrite trim_replace_runs. unfold normalize_spec.
      now rewrite (ink_nil_words x E).
Qed.


Ltac use_set_up H :=
  destruct H as (?Hl & ?Hn & ?Hd & ?Hr & ?Hu);
  repeat match goal with
         | E : _ (_ _) = true |- _ => rewrite E; clear E
         end.

(** X3.  [scrapeContent] (either copy) throws in one situation only: the
    URL is not skipped, the browser was launched, and [browser.close] of
    the [finally] block rejects.  Every other failure (launch, page set
    up, navigation, reading the page) is caught and becomes a result. *)
Theorem scrapeContent_throws_iff
        (P : Platform) (W : World) (extract : Cheerio -> ScrapeResult)
        (url : jsstring) (e : Err) :
  outcome P W extract url = Throw e <->
  e = CloseError /\ isHomepage P url = Normal false
  /\ launch_ok (W url) = true /\ close_ok (W url) = false.
Proof.
  unfold outcome. unfold_run. split.
  - destruct (isHomepage_total P url) as [[|] ->]; cbn; [discriminate|].
    repeat site_case W url; cbn; try discriminate;
      intros [= <-]; auto.
  - intros (-> & -> & Hl & Hc). rewrite Hl. cbn.
    repeat site_case W url; cbn; congruence.
Qed.

Lemma scrapeContent_throws_iff_witness :
  outcome Sample.platform close_fails_world Esm.extract first_url = Throw CloseError.
Proof.
  apply (scrapeContent_throws_iff Sample.platform close_fails_world Esm.extract
           first_url CloseError).
  repeat split.
Defined.

(** X4.  A navigation that settles is not retried, whatever it settles
    with.  When the first [page.goto] resolves with no response or with
    a status other than 200, the invocation makes that one attempt,
    closes the browser and returns the empty result (or throws the
    error of [browser.close]); the page is not read. *)
Theorem bad_response_not_retried
        (P : Platform) (W : World) (extract : Cheerio -> ScrapeResult)
        (url : jsstring) (response : option Response) :
  isHomepage P url = Normal false ->
  set_up (W url) ->
  goto (W url) 1 = Resolves response ->
  (response = None \/
   exists code, response = Some {| status := Some code |} /\ code <> 200) ->
  events P W extract url = rejected_events url
  /\ outcome P W extract url =
     if close_ok (W url) then Normal empty_result else Throw CloseError.
Proof.
  intros Hh Hs Hg Hbad. unfold events, outcome, rejected_events. unfold_run.
  rewrite Hh. use_set_up Hs. rewrite Hg. cbn.
  assert (Hf : failed_to_load response = true).
  { destruct Hbad as [->|(code & -> & Hc)]; [reflexivity|].
    cbn. apply negb_true_iff, N.eqb_neq, Hc. }
  rewrite Hf. cbn. destruct (close_ok (W url)); split; reflexivity.
Qed.

Lemma bad_response_not_retried_witness :
  events Sample.platform (fun _ => not_found) Esm.extract first_url
  = rejected_events first_url
  /\ outcome Sample.platform (fun _ => not_found) Esm.extract first_url
     = Normal empty_result.
Proof.
  apply (@bad_response_not_retried Sample.platform (fun _ => not_found) Esm.extract
           first_url (Some {| status := Some 404 |})).
  - reflexivity.
  - repeat split.
  - reflexivity.
  - right. exists 404. split; [reflexivity | discriminate].
Defined.

Lemma events_counts P W ex url :
  count is_Sleep (events P W ex url) = pred (count is_Goto (events P W ex url))
  /\ (count is_Goto (events P W ex url) <= 3)%nat
  /\ (count is_Launch (events P W ex url) <= 1)%nat
  /\ (count is_Close (events P W ex url) <= count is_Launch (events P W ex url))%nat.
Proof.
  unfold events, count. unfold_run.
  destruct (isHomepage P url) as [[|]|e]; cbn; try lia.
  repeat site_case W url; cbn; lia.
Qed.

(** X5.  The retry loop sleeps once between two attempts and stops at
    the first attempt that resolves: on every path the number of
    2-second pauses is the number of navigation attempts less one, and
    when attempt [k] (of at most 3) is the first that resolves, exactly
    [k] attempts are made. *)
Theorem retry_stops_at_first_success
        (P : Platform) (W : World) (extract : Cheerio -> ScrapeResult)
        (url : jsstring) :
  count is_Sleep (events P W extract url)
  = pred (count is_Goto (events P W extract url))
  /\ (forall k response,
         isHomepage P url = Normal false ->
         set_up (W url) ->
         1 <= k <= 3 ->
         (forall j r, 1 <= j < k -> goto (W url) j <> Resolves r) ->
         goto (W url) k = Resolves response ->
         count is_Goto (events P W extract url) = N.to_nat k).
Proof.
  split; [apply events_counts|].
  intros k response Hh Hs Hk Hfail Hres.
  unfold events, count. unfold_run. rewrite Hh. use_set_up Hs. cbn.
  assert (Hcases : k = 1 \/ k = 2 \/ k = 3) by lia.
  destruct Hcases as [-> | [-> | ->]].
  - rewrite Hres. cbn. repeat site_case W url; reflexivity.
  - destruct (goto (W url) 1) as [r| |] eqn:E1;
      [elim (Hfail 1 r); [lia | exact E1] | |];
      rewrite Hres; cbn; repeat site_case W url; reflexivity.
  - destruct (goto (W url) 1) as [r| |] eqn:E1;
      [elim (Hfail 1 r); [lia | exact E1] | |];
      (destruct (goto (W url) 2) as [r| |] eqn:E2;
       [elim (Hfail 2 r); [lia | exact E2] | |]);
      rewrite Hres; cbn; repeat site_case W url; reflexivity.
Qed.

Lemma retry_stops_at_first_success_witness :
  count is_Goto (events Sample.platform (fun _ => second_try) Esm.extract first_url)
  = 2%nat.
Proof.
  destruct (retry_stops_at_first_success Sample.platform (fun _ => second_try)
              Esm.extract first_url) as (_ & H).
  apply (H 2 (Some {| status := Some 200 |})).
  - reflexivity.
  - repeat split.
  - split; [discriminate | discriminate].
  - intros j r [H1 H2]. assert (j = 1) by lia. subst j. discriminate.
  - reflexivity.
Defined.


Lemma count_app kind a b : count kind (a ++ b) = (count kind a + count kind b)%nat.
Proof. unfold count. now rewrite filter_app, length_app. Qed.

Lemma count_flat_map_le {A} kind (g : A -> list Event) k l :
  (forall x, count kind (g x) <= k)%nat ->
  (count kind (flat_map g l) <= k * List.length l)%nat.
Proof.
  intros H. induction l as [|x l IH]; [cbn; lia|].
  cbn [flat_map List.length]. rewrite count_app. specialize (H x). lia.
Qed.

Lemma count_flat_map_le2 {A} kind kind' (g : A -> list Event) l :
  (forall x, count kind (g x) <= count kind' (g x))%nat ->
  (count kind (flat_map g l) <= count kind' (flat_map g l))%nat.
Proof.
  intros H. induction l as [|x l IH]; [cbn; lia|].
  cbn [flat_map]. rewrite !count_app. specialize (H x). lia.
Qed.

Lemma length_flat_map_le {A B} (g : A -> list B) l :
  (forall x, List.length (g x) <= 1)%nat ->
  (List.length (flat_map g l) <= List.length l)%nat.
Proof.
  intros H. induction l as [|x l IH]; [cbn; lia|].
  cbn [flat_map List.length]. rewrite length_app. specialize (H x). lia.
Qed.

Lemma esm_article_of_length P W c : (List.length (Esm.article_of P W c) <= 1)%nat.
Proof.
  unfold Esm.article_of. destruct (outcome P W Esm.extract (c_url c)) as [r|e];
    [destruct (truthy (r_content r))|]; cbn; lia.
Qed.

Lemma cjs_article_of_length P W c : (List.length (Cjs.article_of P W c) <= 1)%nat.
Proof.
  unfold Cjs.article_of. destruct (outcome P W (Cjs.extract P) (c_url c)) as [r|e];
    [destruct (truthy (r_content r))|]; cbn; lia.
Qed.

(** X6.  [scrapeMultipleUrls] (both copies) always returns; for [n]
    candidates it returns at most [n] articles, launches at most [n]
    browsers, makes at most [3 * n] navigation attempts, and closes no
    more browsers than it launched. *)
Theorem batch_bounds (P : Platform) (W : World) (searchResults : list CandidateUrl) :
  (exists articles s',
      Esm.scrapeMultipleUrls P W searchResults init = (Normal articles, s')
      /\ (List.length articles <= List.length searchResults)%nat
      /\ within_bounds (trace s') (List.length searchResults))
  /\ (exists articles s',
         Cjs.scrapeMultipleUrls P W searchResults init = (Normal articles, s')
         /\ (List.length articles <= List.length searchResults)%nat
         /\ within_bounds (trace s') (List.length searchResults)).
Proof.
  split.
  - unfold Esm.scrapeMultipleUrls.
    destruct (esm_loop_run P W searchResults [] init) as [b ->].
    do 2 eexists. split; [reflexivity|]. cbn [app trace init]. split.
    + apply length_flat_map_le. apply esm_article_of_length.
    + unfold within_bounds. parts.
      * etransitivity; [apply (@count_flat_map_le _ is_Launch _ 1) | lia].
        intros c. rewrite count_app. cbn.
        pose proof (events_counts P W Esm.extract (c_url c)). lia.
      * apply count_flat_map_le. intros c. rewrite count_app. cbn.
        pose proof (events_counts P W Esm.extract (c_url c)). lia.
      * apply count_flat_map_le2. intros c. rewrite !count_app. cbn.
        pose proof (events_counts P W Esm.extract (c_url c)). lia.
  - unfold Cjs.scrapeMultipleUrls.
    destruct (cjs_loop_run P W searchResults [] init) as [b ->].
    do 2 eexists. split; [reflexivity|]. cbn [app trace init]. split.
    + apply length_flat_map_le. apply cjs_article_of_length.
    + unfold within_bounds. parts.
      * etransitivity; [apply (@count_flat_map_le _ is_Launch _ 1) | lia].
        intros c.
        pose proof (events_counts P W (Cjs.extract P) (c_url c)). lia.
      * apply count_flat_map_le. intros c.
        pose proof (events_counts P W (Cjs.extract P) (c_url c)). lia.
      * apply count_flat_map_le2. intros c.
        pose proof (events_counts P W (Cjs.extract P) (c_url c)). lia.
Qed.


Lemma configured_spec E :
  negb (truthy_opt (Messenger.TWILIO_ACCOUNT_SID E))
  || negb (truthy_opt (Messenger.TWILIO_AUTH_TOKEN E))
  || negb (truthy_opt (Messenger.TWILIO_PHONE_NUMBER E))
  || negb (truthy_opt (Messenger.RECIPIENT_PHONE_NUMBER E))
  = negb (configured E).
Proof.
  unfold configured.
  destruct (truthy_opt (Messenger.TWILIO_ACCOUNT_SID E)),
    (truthy_opt (Messenger.TWILIO_AUTH_TOKEN E)),
    (truthy_opt (Messenger.TWILIO_PHONE_NUMBER E)),
    (truthy_opt (Messenger.RECIPIENT_PHONE_NUMBER E)); reflexivity.
Qed.

Lemma messageToSend_bounded message :
  len (Messenger.messageToSend message) <= 1600
  /\ (len message <= 1600 -> Messenger.messageToSend message = message)
  /\ (1600 < len message ->
      Messenger.messageToSend message = firstn 1597 message ++ js "..."
      /\ len (Messenger.messageToSend message) = 1600).
Proof.
  unfold Messenger.messageToSend, Messenger.MAX_LENGTH.
  change (N.to_nat (1600 - 3)) with 1597%nat.
  destruct (1600 <? len message) eqn:E.
  - apply N.ltb_lt in E.
    assert (Hl : len (firstn 1597 message ++ js "...") = 1600).
    { unfold len in *. rewrite length_app, length_firstn.
      change (List.length (js "...")) with 3%nat. lia. }
    parts; [lia | lia | auto].
  - apply N.ltb_ge in E. parts; [exact E | reflexivity | lia].
Qed.

(** X7.  Every request [sendWhatsAppMessage] makes to the messaging
    service has a body of at most 1600 characters: a message within the
    limit is sent unchanged, a longer one is cut to its first 1597
    characters followed by three dots, 1600 characters in all. *)
Theorem sent_body_bounded (E : Messenger.Env) (T : Messenger.Twilio)
        (message : jsstring) (request : Request) :
  In (MessagesCreate request) (snd (Messenger.sendWhatsAppMessage E T message)) ->
  len (q_body request) <= 1600
  /\ (len message <= 1600 -> q_body request = message)
  /\ (1600 < len message ->
      q_body request = firstn 1597 message ++ js "..."
      /\ len (q_body request) = 1600).
Proof.
  unfold Messenger.sendWhatsAppMessage. rewrite configured_spec.
  destruct (configured E); cbn [negb]; [|intros []].
  destruct (Messenger.client T); cbn [negb]; [|intros []].
  unfold catching, andThen, act, returns, raises.
  match goal with |- context [Messenger.create T ?q] =>
    destruct (Messenger.create T q) end;
    cbn; (intros [H|[]]); injection H as <-; cbn [q_body];
    apply messageToSend_bounded.
Qed.

Lemma sent_body_bounded_witness :
  len (q_body long_request) <= 1600
  /\ (len long_message <= 1600 -> q_body long_request = long_message)
  /\ (1600 < len long_message ->
      q_body long_request = firstn 1597 long_message ++ js "..."
      /\ len (q_body long_request) = 1600).
Proof.
  apply (@sent_body_bounded sample_env accepting long_message long_request).
  vm_compute. left. reflexivity.
Defined.

(** X8.  [sendWhatsAppMessage] calls the service only when the four
    configuration variables are set and the client exists; otherwise it
    returns the reason and makes no call.  When it does call, it makes
    one request, from and to the configured numbers with the whatsapp
    prefix, returns the message id when the service accepts, and throws
    an error that wraps the cause when the service rejects. *)
Theorem send_is_gated (E : Messenger.Env) (T : Messenger.Twilio) (message : jsstring) :
  let run := Messenger.sendWhatsAppMessage E T message in
  (configured E = false ->
   run = (Returns (Messenger.NotSent (js "configuration_missing")), []))
  /\ (configured E = true -> Messenger.client T = false ->
      run = (Returns (Messenger.NotSent (js "client_not_initialized")), []))
  /\ (configured E = true -> Messenger.client T = true ->
      exists request,
        snd run = [MessagesCreate request]
        /\ q_from request = js "whatsapp:" ++ Messenger.interpolate (Messenger.TWILIO_PHONE_NUMBER E)
        /\ q_to request = js "whatsapp:" ++ Messenger.interpolate (Messenger.RECIPIENT_PHONE_NUMBER E)
        /\ fst run =
           match Messenger.create T request with
           | Fulfilled sid => Returns (Messenger.Sent sid)
           | Rejected cause =>
               Raises (js "Failed to send WhatsApp message: " ++ cause)
           end).
Proof.
  cbv zeta. unfold Messenger.sendWhatsAppMessage. rewrite configured_spec. parts.
  - intros ->. reflexivity.
  - intros -> ->. reflexivity.
  - intros -> ->. cbn [negb]. eexists.
    unfold catching, andThen, act, returns, raises.
    match goal with |- context [Messenger.create T ?q] =>
      destruct (Messenger.create T q) eqn:Ec end; cbn; rewrite ?Ec; parts; reflexivity.
Qed.

Lemma send_is_gated_witness :
  Messenger.sendWhatsAppMessage sample_env_no_recipient accepting long_message
  = (Returns (Messenger.NotSent (js "configuration_missing")), [])
  /\ exists request,
      snd (Messenger.sendWhatsAppMessage sample_env rejecting long_message)
      = [MessagesCreate request]
      /\ fst (Messenger.sendWhatsAppMessage sample_env rejecting long_message)
         = Raises (js "Failed to send WhatsApp message: ETIMEDOUT").
Proof.
  split.
  - destruct (send_is_gated sample_env_no_recipient accepting long_message)
      as (H & _).
    apply H. reflexivity.
  - destruct (send_is_gated sample_env rejecting long_message) as (_ & _ & H).
    destruct (H eq_refl eq_refl) as (request & Hs & _ & _ & Hf).
    exists request. split; [exact Hs | exact Hf].
Defined.

(** X9.  [sendArticleSummaries] never throws and makes at most one
    request.  It answers with the formatted text only when the service
    rejected the request, and the text is then [formatMessage] of its
    arguments.  Only the first article counts: the run is the same as
    the run with the other articles dropped. *)
Theorem sendArticleSummaries_never_raises
        (E : Messenger.Env) (T : Messenger.Twilio) (dateFormatted : jsstring)
        (articles : list Summarized) :
  let run := Messenger.sendArticleSummaries E T dateFormatted articles in
  (exists r, fst run = Returns r)
  /\ (List.length (snd run) <= 1)%nat
  /\ (forall formatted,
         fst run = Returns (Messenger.FormatOnly formatted) ->
         formatted = Messenger.formatMessage dateFormatted articles
         /\ exists request cause,
             snd run = [MessagesCreate request]
             /\ Messenger.create T request = Rejected cause)
  /\ (forall first_article others,
         articles = first_article :: others ->
         run = Messenger.sendArticleSummaries E T dateFormatted [first_article]).
Proof.
  cbv zeta.
  match goal with
  | |- ?A /\ ?B /\ ?C /\ ?D =>
      assert (H : A /\ B /\ C);
        [| destruct H as (Ha & Hb & Hc); parts; auto;
           intros a0 l0 ->; reflexivity]
  end.
  unfold Messenger.sendArticleSummaries, Messenger.sendWhatsAppMessage.
  rewrite configured_spec.
  destruct (configured E); cbn [negb];
    [|cbn; parts; [eauto | lia | discriminate]].
  destruct (Messenger.client T) eqn:Ecl; cbn [negb];
    [|cbn; parts; [eauto | lia | discriminate]].
  unfold catching, andThen, act, returns, raises.
  match goal with |- context [Messenger.create T ?q] =>
    destruct (Messenger.create T q) eqn:Ec end; cbn.
  - parts; [eauto | lia | discriminate].
  - parts; [eauto | lia |].
    intros formatted [= <-]. split; [reflexivity|]. eauto.
Qed.

Lemma sendArticleSummaries_never_raises_witness :
  exists request cause,
    snd (Messenger.sendArticleSummaries sample_env rejecting sample_date
           sample_summaries) = [MessagesCreate request]
    /\ Messenger.create rejecting request = Rejected cause.
Proof.
  destruct (sendArticleSummaries_never_raises sample_env rejecting sample_date
              sample_summaries) as (_ & _ & H & _).
  destruct (H (Messenger.formatMessage sample_date sample_summaries)) as (_ & H').
  - vm_compute. reflexivity.
  - exact H'.
Defined.


Lemma filter_new_run C rs : forall acc,
  (forall a, In a (snd (filter_new C rs acc)) ->
             exists r, a = IsUrlProcessedBefore (c_url r))
  /\ (forall l, fst (filter_new C rs acc) = Returns l ->
                l = acc ++ filter (unseen C) rs
                /\ snd (filter_new C rs acc) = checks rs)
  /\ (forall m, fst (filter_new C rs acc) = Raises m ->
                exists url, isUrlProcessedBefore C url = Rejected m)
  /\ (forall c, fst (filter_new C rs acc) <> Exits c).
Proof.
  induction rs as [|r rs IH]; intros acc.
  - cbn. parts; try discriminate; [tauto|].
    intros l [= <-]. now rewrite app_nil_r.
  - cbn [filter_new filter checks map]. unfold andThen, act, unseen.
    destruct (isUrlProcessedBefore C (c_url r)) as [[|]|m'] eqn:Ec; cbn [negb].
    + destruct (IH acc) as (H1 & H2 & H3 & H4).
      destruct (filter_new C rs acc) as [res t]. cbn [fst snd] in *. parts.
      * intros a [<-|Ha]; eauto.
      * intros l Hl. destruct (H2 l Hl) as [-> ->]. auto.
      * exact H3.
      * exact H4.
    + destruct (IH (acc ++ [r])) as (H1 & H2 & H3 & H4).
      destruct (filter_new C rs (acc ++ [r])) as [res t]. cbn [fst snd] in *. parts.
      * intros a [<-|Ha]; eauto.
      * intros l Hl. destruct (H2 l Hl) as [-> ->].
        rewrite <- app_assoc. auto.
      * exact H3.
      * exact H4.
    + cbn. parts; try discriminate.
      * intros a [<-|[]]. eauto.
      * intros m [= <-]. eauto.
Qed.

Lemma filter_new_ok C rs : forall acc,
  store_answers C rs ->
  filter_new C rs acc = (Returns (acc ++ filter (unseen C) rs), checks rs).
Proof.
  induction rs as [|r rs IH]; intros acc Hs.
  - cbn. now rewrite app_nil_r.
  - cbn [filter_new filter checks map]. unfold andThen, act, unseen.
    destruct (Hs r (or_introl eq_refl)) as [b ->].
    assert (Hs' : store_answers C rs) by (intros x Hx; apply Hs; now right).
    destruct b; cbn [negb]; rewrite IH by exact Hs'; cbn [app];
      [reflexivity | now rewrite <- app_assoc].
Qed.

Lemma mark_all_run C urls :
  (forall a, In a (snd (mark_all C urls)) ->
             exists url, In url urls /\ a = MarkUrlAsProcessed url)
  /\ (forall m, fst (mark_all C urls) = Raises m ->
                exists url, markUrlAsProcessed C url = Rejected m)
  /\ (forall c, fst (mark_all C urls) <> Exits c).
Proof.
  induction urls as [|u urls IH].
  - cbn. parts; try discriminate. tauto.
  - cbn [mark_all]. unfold andThen, act.
    destruct (markUrlAsProcessed C u) as [[]|m'] eqn:Em.
    + destruct IH as (H1 & H2 & H3).
      destruct (mark_all C urls) as [res t]. cbn [fst snd] in *. parts.
      * intros a [<-|Ha]; [exists u; split; [now left | reflexivity]|].
        destruct (H1 a Ha) as (url & Hu & ->). exists url. split; [now right | reflexivity].
      * exact H2.
      * exact H3.
    + cbn. parts; try discriminate.
      * intros a [<-|[]]. exists u. split; [now left | reflexivity].
      * intros m [= <-]. eauto.
Qed.

Lemma mark_all_ok C urls :
  (forall url, In url urls -> markUrlAsProcessed C url = Fulfilled tt) ->
  mark_all C urls = (Returns tt, marks urls).
Proof.
  induction urls as [|u urls IH]; intros H; [reflexivity|].
  cbn [mark_all marks map]. unfold andThen, act.
  rewrite (H u (or_introl eq_refl)).
  rewrite IH by (intros x Hx; apply H; now right). reflexivity.
Qed.

Lemma scrape_run P W newResults :
  scrape P W newResults =
  (Returns (flat_map (Esm.article_of P W) newResults),
   [ScrapeMultipleUrls (map c_url newResults)]).
Proof.
  unfold scrape, act, Esm.scrapeMultipleUrls.
  destruct (esm_loop_run P W newResults [] init) as [b ->]. reflexivity.
Qed.

Lemma sendArticleSummaries_actions E T d articles a :
  In a (snd (Messenger.sendArticleSummaries E T d articles)) ->
  exists request, a = MessagesCreate request.
Proof.
  unfold Messenger.sendArticleSummaries, Messenger.sendWhatsAppMessage.
  rewrite configured_spec.
  destruct (configured E); cbn [negb]; [|intros []].
  destruct (Messenger.client T); cbn [negb]; [|intros []].
  unfold catching, andThen, act, returns, raises.
  match goal with |- context [Messenger.create T ?q] =>
    destruct (Messenger.create T q) end; cbn; intros [<-|[]]; eauto.
Qed.

Lemma sendArticleSummaries_returns E T d articles :
  exists r, fst (Messenger.sendArticleSummaries E T d articles) = Returns r.
Proof.
  unfold Messenger.sendArticleSummaries, Messenger.sendWhatsAppMessage.
  rewrite configured_spec.
  destruct (configured E); cbn [negb]; [|cbn; eauto].
  destruct (Messenger.client T); cbn [negb]; [|cbn; eauto].
  unfold catching, andThen, act, returns, raises.
  match goal with |- context [Messenger.create T ?q] =>
    destruct (Messenger.create T q) end; cbn; eauto.
Qed.


(** Reading a run that is made of steps. *)
Lemma in_andThen {A B} (m : Run A) (k : A -> Run B) a :
  In a (snd (andThen m k)) ->
  In a (snd m) \/ exists v, fst m = Returns v /\ In a (snd (k v)).
Proof.
  unfold andThen. destruct m as [[v|e|c] t]; cbn [fst snd]; auto.
  destruct (k v) as [r t'] eqn:Ek. cbn [snd]. rewrite in_app_iff.
  intros [H|H]; [now left|]. right. exists v. rewrite Ek. auto.
Qed.

Lemma raises_andThen {A B} (m : Run A) (k : A -> Run B) e :
  fst (andThen m k) = Raises e ->
  fst m = Raises e \/ exists v, fst m = Returns v /\ fst (k v) = Raises e.
Proof.
  unfold andThen. destruct m as [[v|e'|c] t]; cbn [fst];
    [|intros H; left; injection H as ->; reflexivity | intros H; discriminate H].
  destruct (k v) as [r t'] eqn:Ek. cbn [fst]. intros ->. right. exists v.
  rewrite Ek. auto.
Qed.

Lemma exits_andThen {A B} (m : Run A) (k : A -> Run B) c :
  fst (andThen m k) = Exits c ->
  fst m = Exits c \/ exists v, fst m = Returns v /\ fst (k v) = Exits c.
Proof.
  unfold andThen. destruct m as [[v|e'|c'] t]; cbn [fst];
    [|intros H; discriminate H | intros H; left; injection H as ->; reflexivity].
  destruct (k v) as [r t'] eqn:Ek. cbn [fst]. intros ->. right. exists v.
  rewrite Ek. auto.
Qed.

Lemma in_act {A} (b : Action) (p : settled A) a : In a (snd (act b p)) -> a = b.
Proof. cbn. intros [H|[]]. now symmetry. Qed.

Lemma returns_act {A} (b : Action) (p : settled A) v :
  fst (act b p) = Returns v -> p = Fulfilled v.
Proof. cbn. destruct p; [intros [= ->]; reflexivity | discriminate]. Qed.

Lemma raises_act {A} (b : Action) (p : settled A) e :
  fst (act b p) = Raises e -> p = Rejected e.
Proof. cbn. destruct p; [discriminate | intros [= ->]; reflexivity]. Qed.

Lemma exits_act {A} (b : Action) (p : settled A) c : fst (act b p) <> Exits c.
Proof. cbn. destruct p; discriminate. Qed.

(** A [catch] that throws the error again changes nothing. *)
Lemma catching_rethrow {A} (m : Run A) :
  catching m (fun error => raises error) = m.
Proof.
  unfold catching, raises. destruct m as [[v|e|c] t]; try reflexivity.
  now rewrite app_nil_r.
Qed.

Ltac step_in H v Hv :=
  apply in_andThen in H; destruct H as [H | (v & Hv & H)].

(** X10.  [main] of src/src/index.js marks a URL as processed only if it
    is the URL of an article the summarizer returned for the articles
    scraped from the search results the store had not seen. *)
Theorem main_marks_only_summarized
        (C : Collaborators) (P : Platform) (W : World)
        (E : Messenger.Env) (T : Messenger.Twilio) (dateFormatted : jsstring)
        (url : jsstring) :
  In (MarkUrlAsProcessed url) (snd (Main.main C P W E T dateFormatted)) ->
  exists searchResults processedArticles,
    fetchSearchResults C = Fulfilled searchResults
    /\ processArticles C
         (flat_map (Esm.article_of P W) (filter (unseen C) searchResults))
       = Fulfilled processedArticles
    /\ In url (map s_url processedArticles).
Proof.
  unfold Main.main. rewrite catching_rethrow. intros H.
  step_in H rs Hrs; [apply in_act in H; discriminate|].
  apply returns_act in Hrs.
  destruct (no_length rs); [contradiction|].
  step_in H new Hnew.
  { destruct (filter_new_run C rs []) as (Hf & _).
    destruct (Hf _ H) as (r & Hr). discriminate. }
  destruct (filter_new_run C rs []) as (_ & Hf & _).
  destruct (Hf _ Hnew) as [-> _]. cbn [app] in H.
  destruct (no_length (filter (unseen C) rs)); [contradiction|].
  rewrite scrape_run in H.
  step_in H scraped Hsc; [cbn in H; destruct H as [H|[]]; discriminate|].
  cbn in Hsc. injection Hsc as <-.
  destruct (no_length (flat_map (Esm.article_of P W) (filter (unseen C) rs)));
    [contradiction|].
  step_in H ps Hps; [apply in_act in H; discriminate|].
  apply returns_act in Hps.
  exists rs, ps. split; [exact Hrs|]. split; [exact Hps|].
  destruct (no_length ps); [contradiction|].
  step_in H u Hu.
  { destruct (mark_all_run C (map s_url ps)) as (Hm & _).
    destruct (Hm _ H) as (u' & Hu' & [= ->]). exact Hu'. }
  step_in H r Hr; [|contradiction].
  destruct (sendArticleSummaries_actions _ _ _ _ _ H) as (q & Hq). discriminate.
Qed.

Lemma main_marks_only_summarized_witness :
  exists searchResults processedArticles,
    fetchSearchResults sample_collaborators = Fulfilled searchResults
    /\ processArticles sample_collaborators
         (flat_map (Esm.article_of Sample.platform Sample.five_world)
                   (filter (unseen sample_collaborators) searchResults))
       = Fulfilled processedArticles
    /\ In first_url (map s_url processedArticles).
Proof.
  apply (@main_marks_only_summarized sample_collaborators Sample.platform
           Sample.five_world sample_env accepting sample_date first_url).
  vm_compute. find_in.
Defined.

(** X11.  [main] of src/src/index.js never exits the process, and an
    error it throws is a rejection of the search, of the store lookup,
    of the summarizer or of the marking: a failure of the scraper or of
    the messaging never leaves [main]. *)
Theorem main_raises_only_collaborator_errors
        (C : Collaborators) (P : Platform) (W : World)
        (E : Messenger.Env) (T : Messenger.Twilio) (dateFormatted : jsstring) :
  (forall message,
      fst (Main.main C P W E T dateFormatted) = Raises message ->
      fetchSearchResults C = Rejected message
      \/ (exists url, isUrlProcessedBefore C url = Rejected message)
      \/ (exists scraped, processArticles C scraped = Rejected message)
      \/ (exists url, markUrlAsProcessed C url = Rejected message))
  /\ (forall code, fst (Main.main C P W E T dateFormatted) <> Exits code).
Proof.
  unfold Main.main. rewrite catching_rethrow. split.
  - intros message H.
    apply raises_andThen in H. destruct H as [H | (rs & Hrs & H)];
      [apply raises_act in H; auto|].
    destruct (no_length rs); [discriminate|].
    apply raises_andThen in H. destruct H as [H | (new & Hnew & H)].
    { destruct (filter_new_run C rs []) as (_ & _ & Hf & _). right. left. eauto. }
    destruct (no_length new); [discriminate|].
    rewrite scrape_run in H.
    apply raises_andThen in H. destruct H as [H | (scraped & Hsc & H)];
      [discriminate|].
    destruct (no_length scraped); [discriminate|].
    apply raises_andThen in H. destruct H as [H | (ps & Hps & H)];
      [apply raises_act in H; eauto|].
    destruct (no_length ps); [discriminate|].
    apply raises_andThen in H. destruct H as [H | (u & Hu & H)].
    { destruct (mark_all_run C (map s_url ps)) as (_ & Hm & _).
      right. right. right. eauto. }
    apply raises_andThen in H. destruct H as [H | (r & Hr & H)]; [|discriminate].
    destruct (sendArticleSummaries_returns E T dateFormatted ps) as [r Hr].
    congruence.
  - intros code H.
    apply exits_andThen in H. destruct H as [H | (rs & Hrs & H)];
      [now apply exits_act in H|].
    destruct (no_length rs); [discriminate|].
    apply exits_andThen in H. destruct H as [H | (new & Hnew & H)].
    { destruct (filter_new_run C rs []) as (_ & _ & _ & Hf). now apply Hf in H. }
    destruct (no_length new); [discriminate|].
    rewrite scrape_run in H.
    apply exits_andThen in H. destruct H as [H | (scraped & Hsc & H)];
      [discriminate|].
    destruct (no_length scraped); [discriminate|].
    apply exits_andThen in H. destruct H as [H | (ps & Hps & H)];
      [now apply exits_act in H|].
    destruct (no_length ps); [discriminate|].
    apply exits_andThen in H. destruct H as [H | (u & Hu & H)].
    { destruct (mark_all_run C (map s_url ps)) as (_ & _ & Hm). now apply Hm in H. }
    apply exits_andThen in H. destruct H as [H | (r & Hr & H)]; [|discriminate].
    destruct (sendArticleSummaries_returns E T dateFormatted ps) as [r Hr].
    congruence.
Qed.

Lemma main_raises_only_collaborator_errors_witness :
  fetchSearchResults failing_search = Rejected (js "quota exceeded")
  \/ (exists url, isUrlProcessedBefore failing_search url = Rejected (js "quota exceeded"))
  \/ (exists scraped, processArticles failing_search scraped = Rejected (js "quota exceeded"))
  \/ (exists url, markUrlAsProcessed failing_search url = Rejected (js "quota exceeded")).
Proof.
  destruct (main_raises_only_collaborator_errors failing_search Sample.platform
              Sample.five_world sample_env accepting sample_date) as (H & _).
  apply H. reflexivity.
Defined.

(** X12.  When every stage of [main] of src/src/index.js yields
    something, the run returns and its calls are, in order: the search,
    one store lookup per search result, the scrape of the unseen
    results, the summarizer, one mark per summarized article, and then
    the calls of [sendArticleSummaries].  The articles are marked
    before the message is sent, whatever the messaging service does. *)
Theorem main_marks_before_sending
        (C : Collaborators) (P : Platform) (W : World)
        (E : Messenger.Env) (T : Messenger.Twilio) (dateFormatted : jsstring)
        (rs : list CandidateUrl) (ps : list Summarized) :
  fetchSearchResults C = Fulfilled rs ->
  store_answers C rs ->
  flat_map (Esm.article_of P W) (filter (unseen C) rs) <> [] ->
  processArticles C (flat_map (Esm.article_of P W) (filter (unseen C) rs))
    = Fulfilled ps ->
  ps <> [] ->
  (forall p, In p ps -> markUrlAsProcessed C (s_url p) = Fulfilled tt) ->
  Main.main C P W E T dateFormatted
  = (Returns tt, main_actions C P W E T dateFormatted rs ps).
Proof.
  intros Hf Hs Hsc Hp Hps Hm.
  unfold Main.main, main_actions. rewrite catching_rethrow. cbv zeta.
  unfold andThen at 1, act at 1. rewrite Hf.
  assert (Hnew : filter (unseen C) rs <> [])
    by (intros E0; rewrite E0 in Hsc; now elim Hsc).
  destruct rs as [|r0 rs0] eqn:Ers; [now elim Hnew|]. rewrite <- Ers in *.
  replace (no_length rs) with false by now rewrite Ers.
  rewrite (@filter_new_ok C rs [] Hs). cbn [app]. unfold andThen at 1.
  destruct (filter (unseen C) rs) as [|n0 new0] eqn:En; [now elim Hnew|].
  rewrite <- En in *. replace (no_length (filter (unseen C) rs)) with false
    by now rewrite En.
  rewrite scrape_run. unfold andThen at 1.
  destruct (flat_map (Esm.article_of P W) (filter (unseen C) rs))
    as [|s0 sc0] eqn:Es; [now elim Hsc|].
  rewrite <- Es in *.
  replace (no_length (flat_map (Esm.article_of P W) (filter (unseen C) rs)))
    with false by now rewrite Es.
  unfold andThen at 1, act at 1. rewrite Hp.
  destruct ps as [|p0 ps0] eqn:Eps; [now elim Hps|]. rewrite <- Eps in *.
  replace (no_length ps) with false by now rewrite Eps.
  rewrite mark_all_ok
    by (intros u Hu; apply in_map_iff in Hu; destruct Hu as (p & <- & Hin);
        now apply Hm).
  unfold andThen at 1.
  destruct (sendArticleSummaries_returns E T dateFormatted ps) as [r Hr].
  destruct (Messenger.sendArticleSummaries E T dateFormatted ps) as [res t].
  cbn [fst snd] in *. subst res. cbn. rewrite app_nil_r.
  now repeat rewrite <- app_assoc.
Qed.

Lemma main_marks_before_sending_witness :
  Main.main sample_collaborators Sample.platform Sample.five_world sample_env
            accepting sample_date
  = (Returns tt,
     main_actions sample_collaborators Sample.platform Sample.five_world
                  sample_env accepting sample_date Sample.five sample_summaries).
Proof.
  apply main_marks_before_sending.
  - reflexivity.
  - intros r _. eexists. reflexivity.
  - vm_compute. discriminate.
  - reflexivity.
  - vm_compute. discriminate.
  - intros p _. reflexivity.
Defined.


Lemma in_catching {A} (m : Run A) (h : jsstring -> Run A) a :
  In a (snd (catching m h)) ->
  In a (snd m) \/ exists e, fst m = Raises e /\ In a (snd (h e)).
Proof.
  unfold catching. destruct m as [[v|e|c] t]; cbn [fst snd]; auto.
  destruct (h e) as [r t'] eqn:Eh. cbn [snd]. rewrite in_app_iff.
  intros [H|H]; [now left|]. right. exists e. rewrite Eh. auto.
Qed.

Lemma unseen_true C c :
  unseen C c = true -> isUrlProcessedBefore C (c_url c) = Fulfilled false.
Proof.
  unfold unseen. destruct (isUrlProcessedBefore C (c_url c)) as [[|]|]; 
    (reflexivity || discriminate).
Qed.

(** X13.  [main] of src/unnamed/part_001 marks a URL as processed only
    if it is the URL of a search result that the store had not seen and
    that the scraper turned into an article. *)
Theorem webmain_marks_only_scraped
        (C : Collaborators) (S : WebMain.WebService) (P : Platform) (W : World)
        (dateFormatted : jsstring) (url : jsstring) :
  In (MarkUrlAsProcessed url) (snd (WebMain.main C S P W dateFormatted)) ->
  exists searchResults c,
    fetchSearchResults C = Fulfilled searchResults
    /\ In c searchResults
    /\ c_url c = url
    /\ isUrlProcessedBefore C url = Fulfilled false
    /\ Esm.succeeds P W c = true.
Proof.
  unfold WebMain.main. intros H.
  apply in_catching in H. unfold WebMain.try_block in H. destruct H as [H | (e & _ & H)];
    [|cbn in H; destruct H as [H|[]]; discriminate].
  step_in H u0 Hu0; [apply in_act in H; discriminate|].
  step_in H rs Hrs; [apply in_act in H; discriminate|].
  apply returns_act in Hrs.
  destruct (no_length rs); [contradiction|].
  step_in H new Hnew.
  { destruct (filter_new_run C rs []) as (Hf & _).
    destruct (Hf _ H) as (r & Hr). discriminate. }
  destruct (filter_new_run C rs []) as (_ & Hf & _).
  destruct (Hf _ Hnew) as [-> _]. cbn [app] in H.
  destruct (no_length (filter (unseen C) rs)); [contradiction|].
  rewrite scrape_run in H.
  step_in H scraped Hsc; [cbn in H; destruct H as [H|[]]; discriminate|].
  cbn in Hsc. injection Hsc as <-.
  destruct (no_length (flat_map (Esm.article_of P W) (filter (unseen C) rs)));
    [contradiction|].
  step_in H ps Hps; [apply in_act in H; discriminate|].
  destruct (no_length ps); [contradiction|].
  step_in H u Hu.
  - destruct (mark_all_run C (map Esm.a_url
               (flat_map (Esm.article_of P W) (filter (unseen C) rs))))
      as (Hm & _).
    destruct (Hm _ H) as (u' & Hu' & [= ->]).
    rewrite esm_articles_urls in Hu'. apply in_map_iff in Hu'.
    destruct Hu' as (c & <- & Hc). apply filter_In in Hc. destruct Hc as [Hc Hsucc].
    apply filter_In in Hc. destruct Hc as [Hc Hun].
    exists rs, c. repeat split; auto. now apply unseen_true.
  - destruct (WebMain.DEFAULT_RECIPIENT_NUMBER S) as [[|c n]|]; try contradiction.
    step_in H u1 Hu1; [apply in_act in H; discriminate|].
    cbn in H. destruct H as [H|[]]; discriminate.
Qed.

Lemma webmain_marks_only_scraped_witness :
  exists searchResults c,
    fetchSearchResults sample_collaborators = Fulfilled searchResults
    /\ In c searchResults
    /\ c_url c = first_url
    /\ isUrlProcessedBefore sample_collaborators first_url = Fulfilled false
    /\ Esm.succeeds Sample.platform Sample.five_world c = true.
Proof.
  apply (@webmain_marks_only_scraped sample_collaborators web_service
           Sample.platform Sample.five_world sample_date first_url).
  vm_compute. find_in.
Defined.


Lemma andThen_returns {A B} (m : Run A) (k : A -> Run B) v :
  fst m = Returns v -> andThen m k = (fst (k v), snd m ++ snd (k v)).
Proof.
  unfold andThen. destruct m as [r t]. cbn [fst snd]. intros ->.
  now destruct (k v).
Qed.

Lemma exits_andThen_shape {A B} (m : Run A) (k : A -> Run B) c :
  fst (andThen m k) = Exits c ->
  fst m = Exits c
  \/ exists v, fst m = Returns v /\ fst (k v) = Exits c
               /\ snd (andThen m k) = snd m ++ snd (k v).
Proof.
  intros H. destruct (exits_andThen m k H) as [H'|(v & Hv & Hk)]; [now left|].
  right. exists v. rewrite (andThen_returns m k Hv). auto.
Qed.

Lemma try_block_raises C S P W d e :
  fst (WebMain.try_block C S P W d) = Raises e -> some_rejection C S e.
Proof.
  unfold WebMain.try_block, some_rejection. intros H.
  apply raises_andThen in H. destruct H as [H | (u0 & Hu0 & H)];
    [apply raises_act in H; auto|].
  apply raises_andThen in H. destruct H as [H | (rs & Hrs & H)];
    [apply raises_act in H; auto|].
  destruct (no_length rs); [discriminate|].
  apply raises_andThen in H. destruct H as [H | (new & Hnew & H)].
  { destruct (filter_new_run C rs []) as (_ & _ & Hf & _). right. right. left. eauto. }
  destruct (no_length new); [discriminate|].
  rewrite scrape_run in H.
  apply raises_andThen in H. destruct H as [H | (scraped & Hsc & H)];
    [discriminate|].
  destruct (no_length scraped); [discriminate|].
  apply raises_andThen in H. destruct H as [H | (ps & Hps & H)];
    [apply raises_act in H; do 3 right; left; eauto|].
  destruct (no_length ps); [discriminate|].
  apply raises_andThen in H. destruct H as [H | (u & Hu & H)].
  { destruct (mark_all_run C (map Esm.a_url scraped)) as (_ & Hm & _).
    do 4 right. left. eauto. }
  destruct (WebMain.DEFAULT_RECIPIENT_NUMBER S) as [[|c n]|]; try discriminate.
  apply raises_andThen in H. destruct H as [H | (u1 & Hu1 & H)]; [|discriminate].
  apply raises_act in H. do 5 right. eauto.
Qed.

Lemma try_block_exits C S P W d code :
  fst (WebMain.try_block C S P W d) = Exits code ->
  code = 0
  /\ exists before recipient message,
      snd (WebMain.try_block C S P W d)
      = before ++ [SendMessage recipient message; ProcessExit 0]
      /\ WebMain.sendMessage S recipient message = Fulfilled tt
      /\ WebMain.DEFAULT_RECIPIENT_NUMBER S = Some recipient.
Proof.
  unfold WebMain.try_block. intros H.
  apply exits_andThen_shape in H. destruct H as [H | (u0 & Hu0 & H & ->)];
    [now apply exits_act in H|].
  apply exits_andThen_shape in H. destruct H as [H | (rs & Hrs & H & ->)];
    [now apply exits_act in H|].
  destruct (no_length rs); [discriminate|].
  apply exits_andThen_shape in H. destruct H as [H | (new & Hnew & H & ->)].
  { destruct (filter_new_run C rs []) as (_ & _ & _ & Hf). now apply Hf in H. }
  destruct (no_length new); [discriminate|].
  rewrite scrape_run in *.
  apply exits_andThen_shape in H. destruct H as [H | (scraped & Hsc & H & ->)];
    [discriminate|].
  destruct (no_length scraped); [discriminate|].
  apply exits_andThen_shape in H. destruct H as [H | (ps & Hps & H & ->)];
    [now apply exits_act in H|].
  destruct (no_length ps); [discriminate|].
  apply exits_andThen_shape in H. destruct H as [H | (u & Hu & H & ->)].
  { destruct (mark_all_run C (map Esm.a_url scraped)) as (_ & _ & Hm).
    now apply Hm in H. }
  destruct (WebMain.DEFAULT_RECIPIENT_NUMBER S) as [[|c n]|]; try discriminate.
  cbv zeta in *.
  apply exits_andThen_shape in H. destruct H as [H | (u1 & Hu1 & H & ->)];
    [now apply exits_act in H|].
  apply returns_act in Hu1. destruct u1.
  cbn in H. injection H as <-. split; [reflexivity|].
  cbn [fst snd exit act app].
  match goal with
  | |- exists before recipient message,
        ?a :: ?b :: ?X ++ ?x :: ?y :: ?Y ++ ?Z = _ /\ _ =>
      exists (a :: b :: X ++ x :: y :: Y), (c :: n), (WebMain.message_of d ps)
  end.
  split; [|split; [exact Hu1 | reflexivity]].
  cbn [app]. rewrite <- app_assoc. reflexivity.
Qed.

(** X14.  [main] of src/unnamed/part_001 never throws.  It exits with
    code 0 only right after a message to the configured recipient was
    accepted, with code 1 only after a collaborator rejected, and with
    no other code; when it returns it has not called [process.exit]. *)
Theorem webmain_exit_codes
        (C : Collaborators) (S : WebMain.WebService) (P : Platform) (W : World)
        (dateFormatted : jsstring) :
  let run := WebMain.main C S P W dateFormatted in
  (forall message, fst run <> Raises message)
  /\ (fst run = Exits 0 ->
      exists before recipient message,
        snd run = before ++ [SendMessage recipient message; ProcessExit 0]
        /\ WebMain.sendMessage S recipient message = Fulfilled tt
        /\ WebMain.DEFAULT_RECIPIENT_NUMBER S = Some recipient)
  /\ (fst run = Exits 1 ->
      exists before e, snd run = before ++ [ProcessExit 1] /\ some_rejection C S e)
  /\ (forall code, fst run = Exits code -> code = 0 \/ code = 1)
  /\ (forall u, fst run = Returns u -> forall code, ~ In (ProcessExit code) (snd run)).
Proof.
  cbv zeta. unfold WebMain.main, catching.
  pose proof (@try_block_raises C S P W dateFormatted) as Hr.
  pose proof (@try_block_exits C S P W dateFormatted) as He.
  destruct (WebMain.try_block C S P W dateFormatted) as [[u|e|c] t] eqn:Et;
    cbn [fst snd exit] in *.
  - parts; try discriminate. intros u' _ code Hin.
    (* a run that returns never exited *)
    revert Hin. clear Hr He.
    assert (Hno : forall a, In a (snd (WebMain.try_block C S P W dateFormatted)) ->
                            fst (WebMain.try_block C S P W dateFormatted) = Returns u ->
                            a <> ProcessExit code).
    { unfold WebMain.try_block. intros a H Hret Ha. subst a.
      step_in H u0 Hu0; [apply in_act in H; discriminate|].
      rewrite (andThen_returns _ _ Hu0) in Hret. cbn [fst] in Hret.
      step_in H rs Hrs; [apply in_act in H; discriminate|].
      rewrite (andThen_returns _ _ Hrs) in Hret. cbn [fst] in Hret.
      destruct (no_length rs); [contradiction|].
      step_in H new Hnew.
      { destruct (filter_new_run C rs []) as (Hf & _).
        destruct (Hf _ H) as (r & Hr). discriminate. }
      rewrite (andThen_returns _ _ Hnew) in Hret. cbn [fst] in Hret.
      destruct (no_length new); [contradiction|].
      rewrite scrape_run in H, Hret.
      step_in H scraped Hsc; [cbn in H; destruct H as [H|[]]; discriminate|].
      rewrite (andThen_returns _ _ Hsc) in Hret. cbn [fst] in Hret.
      destruct (no_length scraped); [contradiction|].
      step_in H ps Hps; [apply in_act in H; discriminate|].
      rewrite (andThen_returns _ _ Hps) in Hret. cbn [fst] in Hret.
      destruct (no_length ps); [contradiction|].
      step_in H u1 Hu1.
      { destruct (mark_all_run C (map Esm.a_url scraped)) as (Hm & _).
        destruct (Hm _ H) as (x & _ & Hx). discriminate. }
      rewrite (andThen_returns _ _ Hu1) in Hret. cbn [fst] in Hret.
      destruct (WebMain.DEFAULT_RECIPIENT_NUMBER S) as [[|c n]|]; try contradiction.
      cbv zeta in *. unfold andThen, act in Hret.
      destruct (WebMain.sendMessage S (c :: n) (WebMain.message_of dateFormatted ps))
        as [[]|e]; cbn in Hret; discriminate. }
    rewrite Et in Hno. cbn [fst snd] in Hno.
    intros Hin. now apply (Hno _ Hin eq_refl).
  - parts; try discriminate.
    + intros _. exists t, e. split; [reflexivity | now apply Hr].
    + intros code [= <-]. now right.
  - destruct (He c eq_refl) as (-> & before & recipient & message & Ht & Hs & Hd).
    parts; try discriminate.
    + intros _. eauto 6.
    + intros code [= <-]. now left.
Qed.

Lemma webmain_exit_codes_witness :
  (exists before recipient message,
      snd (WebMain.main sample_collaborators web_service Sample.platform
             Sample.five_world sample_date)
      = before ++ [SendMessage recipient message; ProcessExit 0]
      /\ WebMain.sendMessage web_service recipient message = Fulfilled tt
      /\ WebMain.DEFAULT_RECIPIENT_NUMBER web_service = Some recipient)
  /\ forall code,
      ~ In (ProcessExit code)
           (snd (WebMain.main sample_collaborators web_no_recipient Sample.platform
                   Sample.five_world sample_date)).
Proof.
  split.
  - destruct (webmain_exit_codes sample_collaborators web_service Sample.platform
                Sample.five_world sample_date) as (_ & H & _).
    apply H. vm_compute. reflexivity.
  - destruct (webmain_exit_codes sample_collaborators web_no_recipient
                Sample.platform Sample.five_world sample_date) as (_ & _ & _ & _ & H).
    apply (H tt). vm_compute. reflexivity.
Defined.


(** X15.  When every stage of [main] of src/unnamed/part_001 yields
    something, the calls are, in order: the initialisation of the
    WhatsApp Web service, the search, one store lookup per search
    result, the scrape, the summarizer, one mark per scraped article,
    and then, if a recipient number is configured, one message and
    [process.exit] with code 0 when the message was accepted and 1 when
    it was rejected.  Without a recipient the run returns after the
    marking and sends nothing. *)
Theorem webmain_marks_before_sending
        (C : Collaborators) (S : WebMain.WebService) (P : Platform) (W : World)
        (dateFormatted : jsstring)
        (rs : list CandidateUrl) (ps : list Summarized) :
  let scraped := flat_map (Esm.article_of P W) (filter (unseen C) rs) in
  WebMain.initialize S = Fulfilled tt ->
  fetchSearchResults C = Fulfilled rs ->
  store_answers C rs ->
  scraped <> [] ->
  processArticles C scraped = Fulfilled ps ->
  ps <> [] ->
  (forall a, In a scraped -> markUrlAsProcessed C (Esm.a_url a) = Fulfilled tt) ->
  WebMain.main C S P W dateFormatted =
  match WebMain.DEFAULT_RECIPIENT_NUMBER S with
  | Some (c :: n) =>
      let message := WebMain.message_of dateFormatted ps in
      let code :=
        match WebMain.sendMessage S (c :: n) message with
        | Fulfilled _ => 0
        | Rejected _ => 1
        end in
      (Exits code,
       webmain_actions C P W rs ++ [SendMessage (c :: n) message; ProcessExit code])
  | _ => (Returns tt, webmain_actions C P W rs)
  end.
Proof.
  cbv zeta. intros Hi Hf Hs Hsc Hp Hps Hm.
  unfold WebMain.main, WebMain.try_block, webmain_actions. cbv zeta.
  unfold andThen at 1, act at 1. rewrite Hi.
  unfold andThen at 1, act at 1. rewrite Hf.
  assert (Hnew : filter (unseen C) rs <> [])
    by (intros E0; rewrite E0 in Hsc; now elim Hsc).
  destruct rs as [|r0 rs0] eqn:Ers; [now elim Hnew|]. rewrite <- Ers in *.
  replace (no_length rs) with false by now rewrite Ers.
  rewrite (@filter_new_ok C rs [] Hs). cbn [app]. unfold andThen at 1.
  destruct (filter (unseen C) rs) as [|n0 new0] eqn:En; [now elim Hnew|].
  rewrite <- En in *. replace (no_length (filter (unseen C) rs)) with false
    by now rewrite En.
  rewrite scrape_run. unfold andThen at 1.
  destruct (flat_map (Esm.article_of P W) (filter (unseen C) rs))
    as [|s0 sc0] eqn:Es; [now elim Hsc|].
  rewrite <- Es in *.
  replace (no_length (flat_map (Esm.article_of P W) (filter (unseen C) rs)))
    with false by now rewrite Es.
  unfold andThen at 1, act at 1. rewrite Hp.
  destruct ps as [|p0 ps0] eqn:Eps; [now elim Hps|]. rewrite <- Eps in *.
  replace (no_length ps) with false by now rewrite Eps.
  rewrite mark_all_ok
    by (intros u Hu; apply in_map_iff in Hu; destruct Hu as (a & <- & Hin);
        now apply Hm).
  unfold andThen at 1.
  destruct (WebMain.DEFAULT_RECIPIENT_NUMBER S) as [[|c n]|].
  - cbn. now rewrite ?app_nil_r, <- ?app_assoc.
  - set (message := WebMain.message_of dateFormatted ps).
    unfold andThen, act, exit, catching.
    destruct (WebMain.sendMessage S (c :: n) message) as [[]|e];
      cbn [app]; repeat rewrite <- app_assoc; cbn [app];
      repeat rewrite <- app_assoc; reflexivity.
  - cbn. now rewrite ?app_nil_r, <- ?app_assoc.
Qed.

Lemma webmain_marks_before_sending_witness :
  WebMain.main sample_collaborators web_service Sample.platform Sample.five_world
               sample_date
  = (Exits 0,
     webmain_actions sample_collaborators Sample.platform Sample.five_world
                     Sample.five
       ++ [SendMessage (js "15550100")
                       (WebMain.message_of sample_date sample_summaries);
           ProcessExit 0]).
Proof.
  apply (@webmain_marks_before_sending sample_collaborators web_service
           Sample.platform Sample.five_world sample_date Sample.five
           sample_summaries).
  - reflexivity.
  - reflexivity.
  - intros r _. eexists. reflexivity.
  - vm_compute. discriminate.
  - reflexivity.
  - vm_compute. discriminate.
  - intros a _. reflexivity.
Defined.
